(** * WebdevClient: an S3-shaped client that speaks WebDAV

    Shallow embedding of [app/lib/webdev-client.ts] and the properties its
    specification states about it.

    Conventions of the embedding.
    - A JavaScript string is its sequence of UTF-16 code units ([jsstring]);
      literals of the source are written [js "..."].
    - A JavaScript number that the client handles is [NaN], an infinity
      or a double whose value is an integer ([JSNum]); [toNumber] rounds an
      integer to the nearest double the way the language does, so a numeral
      of 2^53 or more may be rounded and one beyond the range of the doubles
      reads as [Infinity].
    - An asynchronous method is a computation [Async A]: it appends the
      requests it sends to a log and either returns a value or throws.
    - What the host provides ([fetch], [btoa], [decodeURIComponent],
      [String.prototype.localeCompare]) is a variable of the section that
      uses it; instances used in examples are given in [Module Host]. *)

From Stdlib Require Import String Ascii DecimalString.
From Stdlib Require Import List NArith ZArith Bool Lia Sorted Permutation.
From Stdlib Require DecimalPos DecimalN.
Import ListNotations.

Local Open Scope N_scope.
Local Open Scope list_scope.

(** ** Strings as code-unit sequences *)

Definition codeunit := N.
Definition jsstring := list codeunit.

Definition js (s : string) : jsstring :=
  map N_of_ascii (list_ascii_of_string s).

Definition slash : codeunit := 47.

Fixpoint jsEqb (a b : jsstring) : bool :=
  match a, b with
  | [], [] => true
  | x :: a', y :: b' => (x =? y) && jsEqb a' b'
  | _, _ => false
  end.

(** [isPrefixOf p s]: [s.startsWith(p)]. *)
Fixpoint isPrefixOf (p s : jsstring) : bool :=
  match p, s with
  | [], _ => true
  | x :: p', y :: s' => (x =? y) && isPrefixOf p' s'
  | _ :: _, [] => false
  end.

(** [endsWith s c]: [s.endsWith(c)] for a one-character [c]. *)
Fixpoint endsWith (s : jsstring) (c : codeunit) : bool :=
  match s with
  | [] => false
  | x :: r => match r with [] => x =? c | _ :: _ => endsWith r c end
  end.

(** JavaScript truthiness of a string: the empty string is falsy. *)
Definition truthy (s : jsstring) : bool :=
  match s with [] => false | _ :: _ => true end.

(** [s.replace(/^\//, "")]: at most one leading separator is removed. *)
Definition stripLeadingSlash (s : jsstring) : jsstring :=
  match s with
  | c :: r => if c =? slash then r else s
  | [] => []
  end.

(** [s.replace(/\/$/, "")]: at most one trailing separator is removed. *)
Fixpoint stripTrailingSlash (s : jsstring) : jsstring :=
  match s with
  | [] => []
  | c :: r =>
      match r with
      | [] => if c =? slash then [] else [c]
      | _ :: _ => c :: stripTrailingSlash r
      end
  end.

(** [s.replace(/^\/|\/$/g, "")].  The global scan first tries index 0, where
    only the alternative [^\/] can match (the other one needs the separator
    to be the last character, and then the first alternative has already
    taken it); afterwards only [\/$] can match, at the last index, provided
    that index was not consumed by the first match. *)
Definition trimSlashes (s : jsstring) : jsstring :=
  stripTrailingSlash (stripLeadingSlash s).

(** ** Configuration and the path resolver *)

Record WebdevConfig := {
  endpoint : jsstring;
  username : jsstring;
  password : jsstring;
  basePath : option jsstring
}.

(** [this.config.basePath?.replace(/^\/|\/$/g, "") || ""] *)
Definition normalizedBasePath (config : WebdevConfig) : jsstring :=
  match basePath config with
  | Some b => trimSlashes b
  | None => []
  end.

Definition getFullPath (config : WebdevConfig) (path : jsstring) : jsstring :=
  let basePath := normalizedBasePath config in
  let cleanPath := stripLeadingSlash path in
  if truthy basePath then basePath ++ [slash] ++ cleanPath else cleanPath.

Definition normalizeEndpoint (endpoint : jsstring) : jsstring :=
  stripTrailingSlash endpoint.

(** Path shapes the specification speaks about. *)
Definition hasLeadingSlash (s : jsstring) : bool :=
  match s with c :: _ => c =? slash | [] => false end.

Fixpoint hasDoubledSlash (s : jsstring) : bool :=
  match s with
  | [] => false
  | c :: r => ((c =? slash) && hasLeadingSlash r) || hasDoubledSlash r
  end.

(** ** Numbers *)

(** The numbers the client computes: [NaN], the infinities and the doubles
    whose value is the integer [z].  (The zero of a negative numeral is
    not told apart from the other one.) *)
Inductive JSNum :=
| NaN
| Infinity (negative : bool)
| Num (z : Z).

(** The double nearest to the integer [v >= 0], the one with the even
    significand in a tie; [None] when [v] rounds beyond the largest double,
    (2^53 - 1) * 2^971.  A double has 53 significant bits: of a wider [v]
    the [width - 53] low bits are rounded away. *)
Definition nearestDouble (v : Z) : option Z :=
  let width := (Z.log2 v + 1)%Z in
  if (width <=? 53)%Z then Some v
  else
    let e := (width - 53)%Z in
    let q := Z.shiftr v e in
    let r := (v - Z.shiftl q e)%Z in
    let half := Z.shiftl 1 (e - 1) in
    let q' := if (half <? r)%Z || ((r =? half)%Z && Z.odd q)
              then (q + 1)%Z else q in
    let d := Z.shiftl q' e in
    if (Z.shiftl 1 1024 <=? d)%Z then None else Some d.

(** The Number value of an integer. *)
Definition toNumber (z : Z) : JSNum :=
  match nearestDouble (Z.abs z) with
  | Some d => Num (Z.sgn z * d)
  | None => Infinity (z <? 0)%Z
  end.

(** [`${n}`] for a status code. *)
Definition numToString (n : N) : jsstring :=
  js (NilZero.string_of_uint (N.to_uint n)).

Definition inRange (lo hi c : N) : bool := (lo <=? c) && (c <=? hi).

(** White space and line terminators skipped by [parseInt]. *)
Definition isStrWhiteSpace (c : codeunit) : bool :=
  inRange 9 13 c || (c =? 32) || (c =? 160) || (c =? 5760)
  || inRange 8192 8202 c || (c =? 8232) || (c =? 8233) || (c =? 8239)
  || (c =? 8287) || (c =? 12288) || (c =? 65279).

Definition isDigit (c : codeunit) : bool := inRange 48 57 c.

Fixpoint trimStart (s : jsstring) : jsstring :=
  match s with
  | c :: r => if isStrWhiteSpace c then trimStart r else s
  | [] => []
  end.

(** Value of the longest prefix of decimal digits; [None] when there is
    no digit. *)
Fixpoint parseDigits (acc : option Z) (s : jsstring) : option Z :=
  match s with
  | c :: r =>
      if isDigit c
      then parseDigits
             (Some (10 * match acc with Some v => v | None => 0 end
                    + Z.of_N (c - 48))%Z) r
      else acc
  | [] => acc
  end.

(** [parseInt(s, 10)]: leading white space is skipped, a sign is read, and
    the longest run of decimal digits that follows is the value, rounded to
    a double; [NaN] when no digit follows.  (The language lets a host
    replace the digits after the twentieth by zeros before it rounds; the
    value here is the exact one, as V8 computes it.) *)
Definition parseInt10 (s : jsstring) : JSNum :=
  let trimmed := trimStart s in
  let '(sign, rest) :=
    match trimmed with
    | c :: r => if c =? 45 then ((-1)%Z, r)
                else if c =? 43 then (1%Z, r) else (1%Z, trimmed)
    | [] => (1%Z, [])
    end in
  match parseDigits None rest with
  | None => NaN
  | Some v => toNumber (sign * v)
  end.

(** ** Exceptions *)

(** A thrown value is an [Error] instance with its message, or anything
    else. *)
Inductive Thrown :=
| ErrorValue (message : jsstring)
| OtherValue.

Inductive Outcome (A : Type) :=
| Return (a : A)
| Throw (e : Thrown).
Arguments Return {A} a.
Arguments Throw {A} e.

(** [error instanceof Error ? error.message : "Unknown error"] *)
Definition errorMessage (error : Thrown) : jsstring :=
  match error with
  | ErrorValue m => m
  | OtherValue => js "Unknown error"
  end.

(** ** Scanning the multi-status body *)

(** First occurrence of [pat] in [s]: the text before it and the text
    after it. *)
Fixpoint splitAt (pat s : jsstring) : option (jsstring * jsstring) :=
  if isPrefixOf pat s then Some ([], skipn (length pat) s)
  else match s with
       | [] => None
       | c :: r =>
           match splitAt pat r with
           | Some (before, after) => Some (c :: before, after)
           | None => None
           end
       end.

(** [s.includes(pat)] *)
Definition includes (s pat : jsstring) : bool :=
  match splitAt pat s with Some _ => true | None => false end.

(** One [exec] of [/<open>([\s\S]*?)<close>/]: the capture and the text
    after the match.  The match starts at the first [open]; if no [close]
    follows it, none follows any later [open] either. *)
Definition execAny (open close s : jsstring) : option (jsstring * jsstring) :=
  match splitAt open s with
  | None => None
  | Some (_, afterOpen) => splitAt close afterOpen
  end.

(** [s.match(/<open>([\s\S]*?)<close>/)], capture 1. *)
Definition matchAny (open close s : jsstring) : option jsstring :=
  option_map fst (execAny open close s).

(** Line terminators, which [.] does not match. *)
Definition isLineTerminator (c : codeunit) : bool :=
  (c =? 10) || (c =? 13) || (c =? 8232) || (c =? 8233).

(** [(.*?)<close>] at the head of [s]: the shortest run of characters
    other than line terminators that is followed by [close]. *)
Fixpoint lazyDot (close s : jsstring) : option jsstring :=
  if isPrefixOf close s then Some []
  else match s with
       | [] => None
       | c :: r =>
           if isLineTerminator c then None
           else option_map (cons c) (lazyDot close r)
       end.

(** [s.match(/<open>(.*?)<close>/)], capture 1: the leftmost start at
    which the whole pattern matches. *)
Fixpoint matchDot (open close s : jsstring) : option jsstring :=
  match (if isPrefixOf open s
         then lazyDot close (skipn (length open) s) else None) with
  | Some capture => Some capture
  | None => match s with
            | [] => None
            | _ :: r => matchDot open close r
            end
  end.

(** The successive captures of
    [responseRegex = /<D:response>([\s\S]*?)<\/D:response>/g] under
    [while ((match = responseRegex.exec(xml)) !== null)].  Every match
    consumes at least the two tags, so [length xml] rounds are enough
    ([responseBlocksFuel_enough]). *)
Fixpoint responseBlocksFuel (fuel : nat) (xml : jsstring) : list jsstring :=
  match fuel with
  | O => []
  | S fuel' =>
      match execAny (js "<D:response>") (js "</D:response>") xml with
      | None => []
      | Some (response, rest) => response :: responseBlocksFuel fuel' rest
      end
  end.

Definition responseBlocks (xml : jsstring) : list jsstring :=
  responseBlocksFuel (length xml) xml.

(** [str.replace(/pat/g, rep)] for a literal, non-empty [pat]: occurrences
    are replaced from left to right and the scan resumes after each one;
    [skip] counts the characters of the current occurrence still to be
    passed over. *)
Fixpoint replaceAllFrom (skip : nat) (pat rep s : jsstring) : jsstring :=
  match s with
  | [] => []
  | c :: r =>
      match skip with
      | S k => replaceAllFrom k pat rep r
      | O =>
          if isPrefixOf pat s
          then rep ++ replaceAllFrom (length pat - 1) pat rep r
          else c :: replaceAllFrom O pat rep r
      end
  end.

Definition replaceAll (pat rep s : jsstring) : jsstring :=
  replaceAllFrom 0 pat rep s.

Definition quot : jsstring := [34].

Definition decodeXml (str : jsstring) : jsstring :=
  replaceAll (js "&apos;") (js "'")
    (replaceAll (js "&quot;") quot
      (replaceAll (js "&gt;") (js ">")
        (replaceAll (js "&lt;") (js "<")
          (replaceAll (js "&amp;") (js "&") str)))).

(** A decoder that follows the specification's words, for comparison with
    [decodeXml]: one pass from left to right in which each of the five
    entity references is replaced by its character and the text produced
    is not looked at again. *)
Definition entityAt (s : jsstring) : option (codeunit * nat) :=
  if isPrefixOf (js "&amp;") s then Some (38, 4%nat)
  else if isPrefixOf (js "&lt;") s then Some (60, 3%nat)
  else if isPrefixOf (js "&gt;") s then Some (62, 3%nat)
  else if isPrefixOf (js "&quot;") s then Some (34, 5%nat)
  else if isPrefixOf (js "&apos;") s then Some (39, 5%nat)
  else None.

Fixpoint unescapeOnceFrom (skip : nat) (s : jsstring) : jsstring :=
  match s with
  | [] => []
  | c :: r =>
      match skip with
      | S k => unescapeOnceFrom k r
      | O =>
          match entityAt s with
          | Some (ch, more) => ch :: unescapeOnceFrom more r
          | None => c :: unescapeOnceFrom O r
          end
      end
  end.

Definition unescapeOnce (s : jsstring) : jsstring := unescapeOnceFrom 0 s.

(** ** The listing data model *)

Record S3Object := {
  key : jsstring;
  name : jsstring;
  size : JSNum;
  lastModified : jsstring;
  isDirectory : bool;
  etag : option jsstring
}.

Record ListObjectsResult := {
  objects : list S3Object;
  prefixes : list jsstring;
  isTruncated : bool;
  nextContinuationToken : option jsstring
}.

(** ** [Array.prototype.sort]

    The sort is stable, and for a consistent comparator its result is the
    one stable sorted arrangement, which insertion from the right
    computes. *)
Section ArraySort.
Context {A : Type} (comparefn : A -> A -> Z).

Fixpoint insertSorted (x : A) (l : list A) : list A :=
  match l with
  | [] => [x]
  | y :: l' =>
      if (comparefn x y <=? 0)%Z then x :: l else y :: insertSorted x l'
  end.

Fixpoint arraySort (l : list A) : list A :=
  match l with
  | [] => []
  | x :: l' => insertSorted x (arraySort l')
  end.
End ArraySort.

(** A numeral that begins with a decimal digit. *)
Definition startsWithDigit (s : jsstring) : bool :=
  match s with c :: _ => isDigit c | [] => false end.

(** ** What the parse reads of a response block

    Names for the values [processResponse] extracts, used to state what
    the listing contains. *)

(** [href]: the decoded text of the first [D:href] element. *)
Definition hrefOf (response : jsstring) : option jsstring :=
  option_map decodeXml (matchDot (js "<D:href>") (js "</D:href>") response).

(** [displayName]: empty when the element is missing. *)
Definition displayNameOf (response : jsstring) : jsstring :=
  match matchDot (js "<D:displayname>") (js "</D:displayname>") response with
  | Some m => decodeXml m
  | None => []
  end.

(** [contentLengthMatch[1]] *)
Definition contentLengthOf (response : jsstring) : option jsstring :=
  matchDot (js "<D:getcontentlength>") (js "</D:getcontentlength>") response.

(** [size] *)
Definition sizeOf (response : jsstring) : JSNum :=
  match contentLengthOf response with
  | Some m => parseInt10 m
  | None => Num 0
  end.

(** [isDirectory]: a missing resource type is falsy. *)
Definition isDirectoryOf (response : jsstring) : bool :=
  match matchAny (js "<D:resourcetype>") (js "</D:resourcetype>") response with
  | Some resourceType => includes resourceType (js "collection")
  | None => false
  end.

(** [lastModified] *)
Definition lastModifiedOf (response : jsstring) : jsstring :=
  match matchDot (js "<D:getlastmodified>") (js "</D:getlastmodified>")
                 response with
  | Some m => decodeXml m
  | None => []
  end.

(** The object pushed for a response block that is kept. *)
Definition entryOf (response : jsstring) : S3Object :=
  {| key := displayNameOf response;
     name := displayNameOf response;
     size := if isDirectoryOf response then Num 0 else sizeOf response;
     lastModified := lastModifiedOf response;
     isDirectory := isDirectoryOf response;
     etag := None |}.

(** ** The listing parse *)

Section Listing.
(** [decodeURIComponent] returns the decoded text or throws [URIError];
    [localeCompare a b] is [a.localeCompare(b)]. *)
Variable decodeURIComponent : jsstring -> Outcome jsstring.
Variable localeCompare : jsstring -> jsstring -> Z.

(** The two arrays the loop pushes to. *)
Definition Collected : Type := list S3Object * list jsstring.

(** The entry test of lines 136-138, on the decoded href. *)
Definition isCurrentPath (fullPrefix decoded : jsstring) : bool :=
  let decodedHref := stripLeadingSlash decoded in
  let expectedCurrent := stripLeadingSlash fullPrefix in
  jsEqb decodedHref expectedCurrent
  || jsEqb decodedHref (expectedCurrent ++ [slash]).

(** One round of the [while] loop on the capture [response]; [Return acc]
    with [acc] unchanged is [continue]. *)
Definition processResponse (fullPrefix response : jsstring)
    (acc : Collected) : Outcome Collected :=
  let '(objects, prefixes) := acc in
  match matchDot (js "<D:href>") (js "</D:href>") response with
  | None => Return acc
  | Some hrefMatch =>
      let href := decodeXml hrefMatch in
      let isDirectory :=
        match matchAny (js "<D:resourcetype>") (js "</D:resourcetype>")
                       response with
        | Some resourceType => includes resourceType (js "collection")
        | None => false
        end in
      let displayName :=
        match matchDot (js "<D:displayname>") (js "</D:displayname>")
                       response with
        | Some m => decodeXml m
        | None => []
        end in
      let size :=
        match matchDot (js "<D:getcontentlength>")
                       (js "</D:getcontentlength>") response with
        | Some m => parseInt10 m
        | None => Num 0
        end in
      let lastModified :=
        match matchDot (js "<D:getlastmodified>")
                       (js "</D:getlastmodified>") response with
        | Some m => decodeXml m
        | None => []
        end in
      if negb (truthy displayName) then Return acc
      else
        match decodeURIComponent href with
        | Throw e => Throw e
        | Return decoded =>
            if isCurrentPath fullPrefix decoded then Return acc
            else
              let key := displayName in
              let name := displayName in
              if isDirectory then
                Return (objects ++ [ {| key := key; name := name;
                                        size := Num 0;
                                        lastModified := lastModified;
                                        isDirectory := true;
                                        etag := None |} ],
                        prefixes ++ [key])
              else
                Return (objects ++ [ {| key := key; name := name;
                                        size := size;
                                        lastModified := lastModified;
                                        isDirectory := false;
                                        etag := None |} ],
                        prefixes)
        end
  end.

(** The [while] loop over the successive captures. *)
Fixpoint parseLoop (fullPrefix : jsstring) (responses : list jsstring)
    (acc : Collected) : Outcome Collected :=
  match responses with
  | [] => Return acc
  | response :: rest =>
      match processResponse fullPrefix response acc with
      | Return acc' => parseLoop fullPrefix rest acc'
      | Throw e => Throw e
      end
  end.

(** The comparator handed to [objects.sort]. *)
Definition compareObjects (a b : S3Object) : Z :=
  if negb (Bool.eqb (isDirectory a) (isDirectory b))
  then (if isDirectory a then -1 else 1)%Z
  else localeCompare (name a) (name b).

(** [displayPrefix], like the [basePath] the source computes at line 100,
    is not used. *)
Definition parsePropfindResponse (xml fullPrefix displayPrefix : jsstring)
    : Outcome ListObjectsResult :=
  match parseLoop fullPrefix (responseBlocks xml) ([], []) with
  | Throw e => Throw e
  | Return (objects, prefixes) =>
      Return {| objects := arraySort compareObjects objects;
                prefixes := prefixes;
                isTruncated := false;
                nextContinuationToken := None |}
  end.

(** The response blocks that reach the arrays: those with an href and a
    non-empty display name whose href, once decoded, is not the current
    path. *)
Definition listed (fullPrefix response : jsstring) : bool :=
  match hrefOf response with
  | None => false
  | Some href =>
      truthy (displayNameOf response)
      && match decodeURIComponent href with
         | Return decoded => negb (isCurrentPath fullPrefix decoded)
         | Throw _ => false
         end
  end.
End Listing.

(** ** Requests, responses and asynchronous methods *)

Record Request := {
  url : jsstring;
  method : jsstring;
  headers : list (jsstring * jsstring);
  body : option jsstring
}.

(** What the client reads of a response: [text] is [await response.text()],
    which may reject; [headersGet] is [response.headers.get]. *)
Record Response := {
  status : N;
  text : Outcome jsstring;
  headersGet : jsstring -> option jsstring
}.

(** [response.ok] *)
Definition ok (response : Response) : bool := inRange 200 299 (status response).

(** A method run: from the log of requests sent so far to the extended log
    and the outcome. *)
Definition Async (A : Type) : Type := list Request -> list Request * Outcome A.

Definition ret {A} (a : A) : Async A := fun log => (log, Return a).

Definition throw {A} (e : Thrown) : Async A := fun log => (log, Throw e).

Definition await {A} (o : Outcome A) : Async A := fun log => (log, o).

Definition bind {A B} (m : Async A) (k : A -> Async B) : Async B :=
  fun log =>
    match m log with
    | (log', Return a) => k a log'
    | (log', Throw e) => (log', Throw e)
    end.

(** [try { m } catch (error) { handler error }] *)
Definition tryCatch {A} (m : Async A) (handler : Thrown -> Async A) : Async A :=
  fun log =>
    match m log with
    | (log', Throw e) => handler e log'
    | done => done
    end.

Notation "x <- m ;; k" := (bind m (fun x => k))
  (at level 61, m at next level, right associativity).

(** [a || b] on a possibly-null string. *)
Definition orElse (a : option jsstring) (b : jsstring) : jsstring :=
  match a with
  | Some s => if truthy s then s else b
  | None => b
  end.

Module Head.
Record Result := {
  contentLength : JSNum;
  contentType : jsstring;
  lastModified : jsstring
}.
End Head.

Section Client.
(** The transport answers a request with a response or fails; [btoa]
    returns the base64 text or throws on a character outside Latin-1. *)
Variable fetch : Request -> Outcome Response.
Variable btoa : jsstring -> Outcome jsstring.
Variable decodeURIComponent : jsstring -> Outcome jsstring.
Variable localeCompare : jsstring -> jsstring -> Z.
Variable config : WebdevConfig.

(** [await fetch(url, init)] *)
Definition send (request : Request) : Async Response :=
  fun log => (log ++ [request], fetch request).

Definition getBasicAuth : Async jsstring :=
  let credentials := username config ++ js ":" ++ password config in
  encoded <- await (btoa credentials) ;;
  ret (js "Basic " ++ encoded).

(** The wire address of a key: [`${endpoint}/${fullKey}`]. *)
Definition resourceUrl (key : jsstring) : jsstring :=
  let fullKey := getFullPath config key in
  let endpoint := normalizeEndpoint (endpoint config) in
  endpoint ++ [slash] ++ fullKey.

Definition xmlBody : jsstring :=
  js "<?xml version=" ++ quot ++ js "1.0" ++ quot ++ js " encoding="
  ++ quot ++ js "utf-8" ++ quot ++ js " ?>" ++ [10]
  ++ js "<D:propfind xmlns:D=" ++ quot ++ js "DAV:" ++ quot ++ js ">" ++ [10]
  ++ js "  <D:prop>" ++ [10]
  ++ js "    <D:displayname/>" ++ [10]
  ++ js "    <D:getcontentlength/>" ++ [10]
  ++ js "    <D:getlastmodified/>" ++ [10]
  ++ js "    <D:resourcetype/>" ++ [10]
  ++ js "  </D:prop>" ++ [10]
  ++ js "</D:propfind>".

(** [delimiter], [maxKeys] and [continuationToken] are accepted and never
    read. *)
Definition listObjects (prefix : jsstring) : Async ListObjectsResult :=
  let normalizedPrefix :=
    if truthy prefix && negb (endsWith prefix slash)
    then prefix ++ [slash] else prefix in
  let fullPrefix := getFullPath config normalizedPrefix in
  let endpoint := normalizeEndpoint (endpoint config) in
  let url := if truthy fullPrefix
             then endpoint ++ [slash] ++ fullPrefix else endpoint in
  tryCatch
    (auth <- getBasicAuth ;;
     response <- send {| url := url; method := js "PROPFIND";
                         headers := [(js "Authorization", auth);
                                     (js "Content-Type", js "application/xml");
                                     (js "Depth", js "1")];
                         body := Some xmlBody |} ;;
     if negb (ok response) && negb (status response =? 207)
     then throw (ErrorValue (js "WebDAV PROPFIND failed: "
                             ++ numToString (status response)))
     else
       xml <- await (text response) ;;
       await (parsePropfindResponse decodeURIComponent localeCompare
                xml fullPrefix normalizedPrefix))
    (fun error =>
       throw (ErrorValue (js "WebDAV listObjects failed: "
                          ++ errorMessage error))).

Definition deleteObject (key : jsstring) : Async unit :=
  let url := resourceUrl key in
  tryCatch
    (auth <- getBasicAuth ;;
     response <- send {| url := url; method := js "DELETE";
                         headers := [(js "Authorization", auth)];
                         body := None |} ;;
     if negb (ok response) && negb (status response =? 204)
     then
       text <- await (text response) ;;
       throw (ErrorValue (js "WebDAV DeleteObject failed: "
                          ++ numToString (status response)
                          ++ js " " ++ text))
     else ret tt)
    (fun error =>
       throw (ErrorValue (js "WebDAV deleteObject failed: "
                          ++ errorMessage error))).

Definition createFolder (folderPath : jsstring) : Async unit :=
  let normalizedPath :=
    if endsWith folderPath slash then folderPath
    else folderPath ++ [slash] in
  let url := resourceUrl normalizedPath in
  tryCatch
    (auth <- getBasicAuth ;;
     response <- send {| url := url; method := js "MKCOL";
                         headers := [(js "Authorization", auth)];
                         body := None |} ;;
     if negb (ok response) && negb (status response =? 201)
     then
       text <- await (text response) ;;
       throw (ErrorValue (js "WebDAV MKCOL failed: "
                          ++ numToString (status response)
                          ++ js " " ++ text))
     else ret tt)
    (fun error =>
       throw (ErrorValue (js "WebDAV createFolder failed: "
                          ++ errorMessage error))).

Definition copyObject (sourceKey destKey : jsstring) : Async unit :=
  let sourceUrl := resourceUrl sourceKey in
  let destUrl := resourceUrl destKey in
  tryCatch
    (auth <- getBasicAuth ;;
     response <- send {| url := destUrl; method := js "COPY";
                         headers := [(js "Authorization", auth);
                                     (js "Destination", destUrl);
                                     (js "Overwrite", js "F")];
                         body := None |} ;;
     if negb (ok response) && negb (status response =? 201)
        && negb (status response =? 204)
     then
       text <- await (text response) ;;
       throw (ErrorValue (js "WebDAV COPY failed: "
                          ++ numToString (status response)
                          ++ js " " ++ text))
     else ret tt)
    (fun error =>
       throw (ErrorValue (js "WebDAV copyObject failed: "
                          ++ errorMessage error))).

Definition headObject (key : jsstring) : Async (option Head.Result) :=
  let url := resourceUrl key in
  tryCatch
    (auth <- getBasicAuth ;;
     response <- send {| url := url; method := js "HEAD";
                         headers := [(js "Authorization", auth)];
                         body := None |} ;;
     if status response =? 404 then ret None
     else if negb (ok response)
     then throw (ErrorValue (js "WebDAV HeadObject failed: "
                             ++ numToString (status response)))
     else
       ret (Some {| Head.contentLength :=
                      parseInt10 (orElse (headersGet response
                                            (js "content-length")) (js "0"));
                    Head.contentType :=
                      orElse (headersGet response (js "content-type"))
                             (js "application/octet-stream");
                    Head.lastModified :=
                      orElse (headersGet response (js "last-modified"))
                             [] |}))
    (fun error =>
       throw (ErrorValue (js "WebDAV headObject failed: "
                          ++ errorMessage error))).
End Client.

(** ** The status policy of an operation

    Vocabulary for the operations that send one request and return
    nothing: [request auth] is the request sent with the authorization
    header [auth], [accepted] the statuses that count as success,
    [operation] the prefix of the failure message that names the
    operation and [failure] the text that introduces status and body. *)

Definition credentialsOf (config : WebdevConfig) : jsstring :=
  username config ++ js ":" ++ password config.

Section StatusPolicy.
Variable fetch : Request -> Outcome Response.
Variable btoa : jsstring -> Outcome jsstring.
Variable config : WebdevConfig.
Variable request : jsstring -> Request.
Variable accepted : N -> bool.
Variable operation failure : jsstring.

(** The run such an operation is expected to have, case by case. *)
Definition statusRun : Async unit :=
  fun log =>
    match btoa (credentialsOf config) with
    | Throw e => (log, Throw (ErrorValue (operation ++ errorMessage e)))
    | Return encoded =>
        let sent := log ++ [request (js "Basic " ++ encoded)] in
        match fetch (request (js "Basic " ++ encoded)) with
        | Throw e => (sent, Throw (ErrorValue (operation ++ errorMessage e)))
        | Return response =>
            if accepted (status response) then (sent, Return tt)
            else
              match text response with
              | Return content =>
                  (sent, Throw (ErrorValue
                                  (operation ++ failure
                                   ++ numToString (status response)
                                   ++ js " " ++ content)))
              | Throw e =>
                  (sent, Throw (ErrorValue (operation ++ errorMessage e)))
              end
        end
    end.

(** What the specification asks of [run]: it succeeds exactly when the
    transport answers with an accepted status; any other status raises the
    failure that names the operation, the status and the body; a failure of
    the transport is raised again as the failure that names the operation;
    and nothing else is ever thrown. *)
Definition StatusPolicy (run : Async unit) : Prop :=
  forall log,
    (snd (run log) = Return tt <->
     exists encoded response,
       btoa (credentialsOf config) = Return encoded
       /\ fetch (request (js "Basic " ++ encoded)) = Return response
       /\ accepted (status response) = true)
    /\ (forall encoded response content,
          btoa (credentialsOf config) = Return encoded ->
          fetch (request (js "Basic " ++ encoded)) = Return response ->
          accepted (status response) = false ->
          text response = Return content ->
          snd (run log)
          = Throw (ErrorValue (operation ++ failure
                               ++ numToString (status response)
                               ++ js " " ++ content)))
    /\ (forall encoded e,
          btoa (credentialsOf config) = Return encoded ->
          fetch (request (js "Basic " ++ encoded)) = Throw e ->
          snd (run log) = Throw (ErrorValue (operation ++ errorMessage e)))
    /\ (forall e, snd (run log) = Throw e ->
          exists m, e = ErrorValue (operation ++ m)).
End StatusPolicy.

(** ** Host functions used in the examples *)

Module Host.

(** *** [decodeURIComponent] *)

Definition hexValue (c : codeunit) : option N :=
  if inRange 48 57 c then Some (c - 48)
  else if inRange 65 70 c then Some (c - 55)
  else if inRange 97 102 c then Some (c - 87)
  else None.

(** An escape [%XX] at the head of [s]: its octet and the text after. *)
Definition percentOctet (s : jsstring) : option (N * jsstring) :=
  match s with
  | p :: h :: l :: r =>
      if p =? 37 then
        match hexValue h, hexValue l with
        | Some a, Some b => Some (16 * a + b, r)
        | _, _ => None
        end
      else None
  | _ => None
  end.

(** [n] escaped continuation octets [10xxxxxx], folded into the code
    point under construction. *)
Fixpoint continuation (n : nat) (cp : N) (s : jsstring) : option N :=
  match n with
  | O => Some cp
  | S k =>
      match percentOctet s with
      | Some (b, r) =>
          if N.land b 192 =? 128
          then continuation k (64 * cp + N.land b 63) r
          else None
      | None => None
      end
  end.

Definition utf16 (cp : N) : jsstring :=
  if cp <? 65536 then [cp]
  else [55296 + (cp - 65536) / 1024; 56320 + (cp - 65536) mod 1024].

(** The escape sequence at the head of [s], which starts with [%]: the
    code units it denotes and how many characters it occupies; [None]
    when it is not the UTF-8 encoding of a code point. *)
Definition decodeEscape (s : jsstring) : option (jsstring * nat) :=
  match percentOctet s with
  | None => None
  | Some (b, r) =>
      if b <? 128 then Some ([b], 3%nat)
      else if inRange 194 223 b then
        match continuation 1 (N.land b 31) r with
        | Some cp => Some (utf16 cp, 6%nat)
        | None => None
        end
      else if inRange 224 239 b then
        match continuation 2 (N.land b 15) r with
        | Some cp =>
            if (2048 <=? cp) && negb (inRange 55296 57343 cp)
            then Some (utf16 cp, 9%nat) else None
        | None => None
        end
      else if inRange 240 244 b then
        match continuation 3 (N.land b 7) r with
        | Some cp =>
            if inRange 65536 1114111 cp
            then Some (utf16 cp, 12%nat) else None
        | None => None
        end
      else None
  end.

Fixpoint decodeFrom (skip : nat) (s : jsstring) : Outcome jsstring :=
  match s with
  | [] => Return []
  | c :: r =>
      match skip with
      | S k => decodeFrom k r
      | O =>
          if c =? 37 then
            match decodeEscape s with
            | None => Throw (ErrorValue (js "URI malformed"))
            | Some (units, width) =>
                match decodeFrom (width - 1) r with
                | Return t => Return (units ++ t)
                | Throw e => Throw e
                end
            end
          else
            match decodeFrom O r with
            | Return t => Return (c :: t)
            | Throw e => Throw e
            end
      end
  end.

Definition decodeURIComponent (s : jsstring) : Outcome jsstring :=
  decodeFrom 0 s.

(** *** [btoa] *)

Definition base64Char (i : N) : codeunit :=
  if i <? 26 then 65 + i
  else if i <? 52 then 97 + (i - 26)
  else if i <? 62 then 48 + (i - 52)
  else if i =? 62 then 43 else 47.

Fixpoint base64 (s : list N) : jsstring :=
  match s with
  | [] => []
  | [a] => [base64Char (a / 4); base64Char (a mod 4 * 16); 61; 61]
  | [a; b] =>
      [base64Char (a / 4); base64Char (a mod 4 * 16 + b / 16);
       base64Char (b mod 16 * 4); 61]
  | a :: b :: c :: r =>
      [base64Char (a / 4); base64Char (a mod 4 * 16 + b / 16);
       base64Char (b mod 16 * 4 + c / 64); base64Char (c mod 64)]
      ++ base64 r
  end.

Definition btoa (s : jsstring) : Outcome jsstring :=
  if forallb (fun c => c <? 256) s then Return (base64 s)
  else Throw (ErrorValue (js "Invalid character")).

(** *** A collation

    The order of code units: one consistent comparison, standing for
    whatever collation the host's locale gives. *)
Fixpoint localeCompare (a b : jsstring) : Z :=
  match a, b with
  | [], [] => 0%Z
  | [], _ :: _ => (-1)%Z
  | _ :: _, [] => 1%Z
  | x :: a', y :: b' =>
      match N.compare x y with
      | Lt => (-1)%Z
      | Gt => 1%Z
      | Eq => localeCompare a' b'
      end
  end.

(** *** Transports *)

(** A server that answers every request with the given status and body
    and sends no headers. *)
Definition answering (code : N) (content : jsstring)
    : Request -> Outcome Response :=
  fun _ => Return {| status := code; text := Return content;
                     headersGet := fun _ => None |}.

(** A connection that cannot be established. *)
Definition unreachable : Request -> Outcome Response :=
  fun _ => Throw (ErrorValue (js "fetch failed")).

Definition exampleConfig : WebdevConfig :=
  {| endpoint := js "https://dav.example.com/";
     username := js "user";
     password := js "secret";
     basePath := Some (js "/files/") |}.

End Host.

(** ** Multi-status bodies used in the examples *)

Module Sample.

(** One response element. *)
Definition entry (inner : jsstring) : jsstring :=
  js "<D:response>" ++ inner ++ js "</D:response>".

Definition collection : jsstring :=
  js "<D:resourcetype><D:collection/></D:resourcetype>".

(** The entry of the directory [docs/] itself. *)
Definition selfEntry : jsstring :=
  js "<D:href>/files/docs/</D:href><D:displayname>docs</D:displayname>"
  ++ collection.

(** The listing of [docs/]: the directory itself, the collection [img]
    and the file [readme.txt]. *)
Definition docsBody : jsstring :=
  js "<D:multistatus xmlns:D='DAV:'>"
  ++ entry selfEntry
  ++ entry (js "<D:href>/files/docs/readme.txt</D:href>"
            ++ js "<D:displayname>readme.txt</D:displayname>"
            ++ js "<D:getcontentlength>120</D:getcontentlength>"
            ++ js "<D:getlastmodified>Mon, 01 Jan 2024 00:00:00 GMT"
            ++ js "</D:getlastmodified><D:resourcetype/>")
  ++ entry (js "<D:href>/files/docs/img/</D:href>"
            ++ js "<D:displayname>img</D:displayname>" ++ collection)
  ++ js "</D:multistatus>".

(** Files [b] and [a] and a directory [A], in this order. *)
Definition mixedBody : jsstring :=
  entry (js "<D:href>/b</D:href><D:displayname>b</D:displayname>"
         ++ js "<D:getcontentlength>2</D:getcontentlength>")
  ++ entry (js "<D:href>/A/</D:href><D:displayname>A</D:displayname>"
            ++ collection)
  ++ entry (js "<D:href>/a</D:href><D:displayname>a</D:displayname>"
            ++ js "<D:getcontentlength>1</D:getcontentlength>").

(** An entry without a display name. *)
Definition namelessEntry : jsstring :=
  js "<D:href>/files/docs/lock</D:href>"
  ++ js "<D:getcontentlength>7</D:getcontentlength>".

(** An entry without a content length. *)
Definition sizelessEntry : jsstring :=
  js "<D:href>/files/docs/notes.txt</D:href>"
  ++ js "<D:displayname>notes.txt</D:displayname>".

Definition readmeEntry : jsstring :=
  js "<D:href>/files/docs/readme.txt</D:href>"
  ++ js "<D:displayname>readme.txt</D:displayname>"
  ++ js "<D:getcontentlength>120</D:getcontentlength>".

(** A file named [100%] whose href the server did not escape, without a
    content length. *)
Definition percentEntry : jsstring :=
  js "<D:href>/files/docs/100%</D:href><D:displayname>100%</D:displayname>".

Definition percentBody : jsstring :=
  entry percentEntry ++ entry readmeEntry.

(** Files whose content length is [-5] and [abc]. *)
Definition negativeBody : jsstring :=
  entry (js "<D:href>/f</D:href><D:displayname>f</D:displayname>"
         ++ js "<D:getcontentlength>-5</D:getcontentlength>")
  ++ entry (js "<D:href>/g</D:href><D:displayname>g</D:displayname>"
            ++ js "<D:getcontentlength>abc</D:getcontentlength>").

(** The entry of the directory [docs/] itself when the server writes its
    href without the trailing separator. *)
Definition bareSelfEntry : jsstring :=
  js "<D:href>/files/docs</D:href><D:displayname>docs</D:displayname>"
  ++ collection.

Definition bareSelfBody : jsstring :=
  js "<D:multistatus xmlns:D='DAV:'>"
  ++ entry bareSelfEntry ++ entry readmeEntry
  ++ js "</D:multistatus>".

(** The directory itself, a file without a content length and a file with
    one. *)
Definition sizelessBody : jsstring :=
  entry selfEntry ++ entry sizelessEntry ++ entry readmeEntry.

End Sample.

(** ** Transfers, addresses and the multipart shim *)

(** The body handed to [putObject]: a string or an [ArrayBuffer], the
    latter as its octets. *)
Inductive PutBody :=
| TextBody (content : jsstring)
| BufferBody (octets : list N).

Section Transfers.
(** [encode s] is [new TextEncoder().encode(s)], the UTF-8 octets of
    [s]. *)
Variable fetch : Request -> Outcome Response.
Variable btoa : jsstring -> Outcome jsstring.
Variable encode : jsstring -> list N.
Variable config : WebdevConfig.

Definition getObject (key : jsstring) : Async Response :=
  let url := resourceUrl config key in
  tryCatch
    (auth <- getBasicAuth btoa config ;;
     response <- send fetch {| url := url; method := js "GET";
                               headers := [(js "Authorization", auth)];
                               body := None |} ;;
     if negb (ok response)
     then throw (ErrorValue (js "WebDAV GetObject failed: "
                             ++ numToString (status response)))
     else ret response)
    (fun error =>
       throw (ErrorValue (js "WebDAV getObject failed: "
                          ++ errorMessage error))).

(** The body of the request holds the octets sent. *)
Definition putObject (key : jsstring) (body : PutBody)
    (contentType : option jsstring) : Async unit :=
  let url := resourceUrl config key in
  let bodyData :=
    match body with
    | TextBody content => encode content
    | BufferBody octets => octets
    end in
  tryCatch
    (auth <- getBasicAuth btoa config ;;
     response <- send fetch
                   {| url := url; method := js "PUT";
                      headers := [(js "Authorization", auth);
                                  (js "Content-Type",
                                   orElse contentType
                                     (js "application/octet-stream"))];
                      body := Some bodyData |} ;;
     if negb (ok response)
     then
       text <- await (text response) ;;
       throw (ErrorValue (js "WebDAV PutObject failed: "
                          ++ numToString (status response)
                          ++ js " " ++ text))
     else ret tt)
    (fun error =>
       throw (ErrorValue (js "WebDAV putObject failed: "
                          ++ errorMessage error))).

(** [now] is the reading of [Date.now()] at the call; like the part
    number below, it is an integer small enough to print in plain
    decimal. *)
Definition initiateMultipartUpload (now : N) (key contentType : jsstring)
    : Async jsstring :=
  ret (js "webdev-" ++ numToString now).

Definition uploadPart (key uploadId : jsstring) (partNumber : N)
    (body : list N) (contentLength : option N) : Async jsstring :=
  ret (numToString partNumber).

Definition completeMultipartUpload (key uploadId : jsstring)
    (parts : list (N * jsstring)) : Async unit :=
  ret tt.

Definition abortMultipartUpload (key uploadId : jsstring) : Async unit :=
  ret tt.

Definition getSignedUrl (key : jsstring) (expiresIn : N) : Async jsstring :=
  let fullKey := getFullPath config key in
  let endpoint := normalizeEndpoint (endpoint config) in
  ret (endpoint ++ [slash] ++ fullKey).

Definition getSignedUploadPartUrl (key uploadId : jsstring)
    (partNumber expiresIn : N) : Async jsstring :=
  getSignedUrl key expiresIn.
End Transfers.

(** The encoder of the examples: UTF-8, a lone surrogate becoming
    U+FFFD. *)
Module HostText.

Definition utf8 (cp : N) : list N :=
  if cp <? 128 then [cp]
  else if cp <? 2048 then [192 + cp / 64; 128 + cp mod 64]
  else if cp <? 65536
       then [224 + cp / 4096; 128 + cp / 64 mod 64; 128 + cp mod 64]
       else [240 + cp / 262144; 128 + cp / 4096 mod 64;
             128 + cp / 64 mod 64; 128 + cp mod 64].

Fixpoint encode (s : jsstring) : list N :=
  match s with
  | [] => []
  | c :: r =>
      if inRange 55296 56319 c then
        match r with
        | d :: r' =>
            if inRange 56320 57343 d
            then utf8 (65536 + (c - 55296) * 1024 + (d - 56320)) ++ encode r'
            else utf8 65533 ++ encode r
        | [] => utf8 65533
        end
      else if inRange 56320 57343 c then utf8 65533 ++ encode r
      else utf8 c ++ encode r
  end.

End HostText.

(** ** The request of a listing *)

(** The prefix [listObjects] works with ([normalizedPrefix]) and the
    request it sends with the authorization header [auth]. *)
Definition listPrefix (prefix : jsstring) : jsstring :=
  if truthy prefix && negb (endsWith prefix slash)
  then prefix ++ [slash] else prefix.

Definition listRequest (config : WebdevConfig) (prefix auth : jsstring)
    : Request :=
  let fullPrefix := getFullPath config (listPrefix prefix) in
  {| url := if truthy fullPrefix
            then normalizeEndpoint (endpoint config) ++ [slash] ++ fullPrefix
            else normalizeEndpoint (endpoint config);
     method := js "PROPFIND";
     headers := [(js "Authorization", auth);
                 (js "Content-Type", js "application/xml");
                 (js "Depth", js "1")];
     body := Some xmlBody |}.

(** ** Counting requests *)

(** What a run adds to the log: nothing when the credentials cannot be
    encoded, and otherwise one request, which carries the credentials in
    its [Authorization] header. *)
Definition sendsOne {A : Type} (btoa : jsstring -> Outcome jsstring)
    (config : WebdevConfig) (run : Async A) (log : list Request) : Prop :=
  exists sent,
    fst (run log) = log ++ sent
    /\ match btoa (credentialsOf config) with
       | Return encoded =>
           exists request,
             sent = [request]
             /\ In (js "Authorization", js "Basic " ++ encoded)
                  (headers request)
       | Throw _ => sent = []
       end.

(** * Properties *)

(** ** The embedding on concrete inputs *)

Example trimSlashes_one_each : trimSlashes (js "//a/b//") = js "/a/b/".
Proof. reflexivity. Qed.

Example trimSlashes_root :
  trimSlashes (js "/") = [] /\ trimSlashes (js "//") = [].
Proof. split; reflexivity. Qed.

Example normalizeEndpoint_trailing :
  normalizeEndpoint (js "https://dav.example.com/")
  = js "https://dav.example.com".
Proof. reflexivity. Qed.

Example getFullPath_joins :
  getFullPath Host.exampleConfig (js "/docs/readme.txt")
  = js "files/docs/readme.txt".
Proof. reflexivity. Qed.

Example parseInt10_cases :
  parseInt10 (js "120") = Num 120
  /\ parseInt10 (js "  42 bytes") = Num 42
  /\ parseInt10 (js "-5") = Num (-5)
  /\ parseInt10 (js "+7") = Num 7
  /\ parseInt10 (js "abc") = NaN
  /\ parseInt10 [] = NaN.
Proof. repeat split. Qed.

(** Numerals of 2^53 and more are rounded to the nearest double, to the
    even one in a tie, and read as an infinity beyond the largest. *)
Example parseInt10_large :
  parseInt10 (js "9007199254740992") = Num 9007199254740992
  /\ parseInt10 (js "9007199254740993") = Num 9007199254740992
  /\ parseInt10 (js "9007199254740995") = Num 9007199254740996
  /\ parseInt10 (js "-9007199254740993") = Num (-9007199254740992)
  /\ parseInt10 (numToString (2 ^ 1024 - 2 ^ 970 - 1))
     = Num (2 ^ 1024 - 2 ^ 971)
  /\ parseInt10 (numToString (2 ^ 1024 - 2 ^ 970)) = Infinity false
  /\ parseInt10 (js "-" ++ numToString (10 ^ 400 - 1)) = Infinity true.
Proof. repeat split; vm_compute; reflexivity. Qed.

Example numToString_status : numToString 404 = js "404".
Proof. reflexivity. Qed.

(** [.] stops at a line terminator, and the match then starts at a later
    opening tag. *)
Example matchDot_line_terminator :
  matchDot (js "<a>") (js "</a>") (js "<a>x" ++ [10] ++ js "</a><a>y</a>")
  = Some (js "y").
Proof. reflexivity. Qed.

Example matchDot_shortest :
  matchDot (js "<a>") (js "</a>") (js "..<a>x</a>y</a>") = Some (js "x").
Proof. reflexivity. Qed.

Example matchAny_across_lines :
  matchAny (js "<a>") (js "</a>") (js "<a>x" ++ [10] ++ js "</a>")
  = Some (js "x" ++ [10]).
Proof. reflexivity. Qed.

Example responseBlocks_unclosed :
  responseBlocks (js "<D:response>1</D:response><D:response>2")
  = [js "1"].
Proof. reflexivity. Qed.

Example decodeXml_entities :
  decodeXml (js "a &lt;b&gt; &amp; &quot;c&quot; &apos;d&apos;")
  = js "a <b> & " ++ quot ++ js "c" ++ quot ++ js " 'd'".
Proof. reflexivity. Qed.

Example decodeURIComponent_cases :
  Host.decodeURIComponent (js "/my%20file%2Etxt") = Return (js "/my file.txt")
  /\ Host.decodeURIComponent (js "caf%C3%A9") = Return (js "caf" ++ [233])
  /\ Host.decodeURIComponent (js "%E2%82%AC") = Return [8364]
  /\ Host.decodeURIComponent (js "%F0%9F%98%80") = Return [55357; 56832]
  /\ Host.decodeURIComponent (js "100%")
     = Throw (ErrorValue (js "URI malformed"))
  /\ Host.decodeURIComponent (js "%C0%80")
     = Throw (ErrorValue (js "URI malformed")).
Proof. repeat split. Qed.

Example btoa_credentials :
  Host.btoa (js "user:secret") = Return (js "dXNlcjpzZWNyZXQ=").
Proof. reflexivity. Qed.

(** ** Strings *)

Lemma jsEqb_eq (a b : jsstring) : jsEqb a b = true <-> a = b.
Proof.
  revert b; induction a as [|x a IH]; intros [|y b]; simpl;
    try (split; [discriminate | congruence]); try tauto.
  rewrite andb_true_iff, N.eqb_eq, IH.
  split; [intros [-> ->]; reflexivity | intros [= -> ->]; auto].
Qed.

Lemma isPrefixOf_app (p s : jsstring) : isPrefixOf p (p ++ s) = true.
Proof.
  induction p as [|x p IH]; simpl; [reflexivity|].
  now rewrite N.eqb_refl, IH.
Qed.

Lemma stripLeadingSlash_length (s : jsstring) :
  (length s <= S (length (stripLeadingSlash s)))%nat.
Proof.
  destruct s as [|c r]; simpl; [lia|]. destruct (c =? slash); simpl; lia.
Qed.

Lemma stripLeadingSlash_fixed (s : jsstring) :
  stripLeadingSlash s = s <-> hasLeadingSlash s = false.
Proof.
  destruct s as [|c r]; simpl; [tauto|].
  destruct (c =? slash); [|tauto].
  split; [|discriminate].
  intros E. apply (f_equal (@length _)) in E. simpl in E. lia.
Qed.

Lemma stripLeadingSlash_shape (s : jsstring) :
  hasDoubledSlash s = false ->
  hasLeadingSlash (stripLeadingSlash s) = false
  /\ hasDoubledSlash (stripLeadingSlash s) = false.
Proof.
  destruct s as [|c r]; simpl; [auto|].
  destruct (c =? slash) eqn:E; simpl; rewrite ?E; simpl.
  - intros H. apply orb_false_iff in H. tauto.
  - auto.
Qed.

Lemma stripTrailingSlash_shape (s : jsstring) :
  hasDoubledSlash s = false ->
  hasDoubledSlash (stripTrailingSlash s) = false
  /\ endsWith (stripTrailingSlash s) slash = false
  /\ (hasLeadingSlash s = false ->
      hasLeadingSlash (stripTrailingSlash s) = false).
Proof.
  induction s as [|c r IH]; [simpl; auto|].
  destruct r as [|d r'].
  - simpl. destruct (c =? slash) eqn:E; simpl; rewrite ?E; auto.
  - intros H.
    change (hasDoubledSlash (c :: d :: r'))
      with (((c =? slash) && (d =? slash)) || hasDoubledSlash (d :: r')) in H.
    apply orb_false_iff in H. destruct H as [Hcd Hr].
    destruct (IH Hr) as (H1 & H2 & H3).
    change (stripTrailingSlash (c :: d :: r'))
      with (c :: stripTrailingSlash (d :: r')).
    remember (stripTrailingSlash (d :: r')) as t eqn:Et.
    repeat split.
    + simpl. rewrite H1, orb_false_r.
      destruct (c =? slash) eqn:Ec; [|reflexivity]. simpl in Hcd |- *.
      apply H3. simpl. exact Hcd.
    + destruct t as [|e t'].
      * simpl. destruct (c =? slash) eqn:Ec; [|reflexivity].
        simpl in Hcd. exfalso.
        destruct r' as [|f r'']; simpl in Et.
        -- destruct (d =? slash); discriminate.
        -- discriminate.
      * exact H2.
    + simpl. auto.
Qed.

Lemma hasDoubledSlash_join (a b : jsstring) :
  hasDoubledSlash a = false -> endsWith a slash = false ->
  hasDoubledSlash b = false -> hasLeadingSlash b = false ->
  hasDoubledSlash (a ++ [slash] ++ b) = false.
Proof.
  intros Ha He Hb Hl. induction a as [|c r IH].
  - simpl. now rewrite Hl, Hb.
  - destruct r as [|d r'].
    + simpl in He |- *. rewrite He, Hl, Hb. reflexivity.
    + change (hasDoubledSlash (c :: d :: r'))
        with (((c =? slash) && (d =? slash)) || hasDoubledSlash (d :: r'))
        in Ha.
      apply orb_false_iff in Ha. destruct Ha as [Hcd Hr].
      change ((c :: d :: r') ++ [slash] ++ b)
        with (c :: d :: (r' ++ [slash] ++ b)).
      change (hasDoubledSlash (c :: d :: r' ++ [slash] ++ b))
        with (((c =? slash) && (d =? slash))
              || hasDoubledSlash ((d :: r') ++ [slash] ++ b)).
      rewrite Hcd. simpl orb. apply IH; assumption.
Qed.

Lemma hasLeadingSlash_app (a b : jsstring) :
  a <> [] -> hasLeadingSlash (a ++ b) = hasLeadingSlash a.
Proof. destruct a; [congruence | reflexivity]. Qed.

Lemma truthy_false (s : jsstring) : truthy s = false <-> s = [].
Proof. destruct s; simpl; split; congruence. Qed.

Lemma normalizedBasePath_shape (config : WebdevConfig) :
  (forall b, basePath config = Some b -> hasDoubledSlash b = false) ->
  hasDoubledSlash (normalizedBasePath config) = false
  /\ endsWith (normalizedBasePath config) slash = false
  /\ hasLeadingSlash (normalizedBasePath config) = false.
Proof.
  unfold normalizedBasePath. intros H.
  destruct (basePath config) as [b|]; [|simpl; auto].
  specialize (H b eq_refl). unfold trimSlashes.
  destruct (stripLeadingSlash_shape b H) as [Hl Hd].
  destruct (stripTrailingSlash_shape _ Hd) as (H1 & H2 & H3). auto.
Qed.

(** ** The path resolver *)

(** C2, as stated, fails: with no base path, the key [//a] resolves to
    [/a], which begins with a separator, and the key [a//b] resolves to
    itself, doubled separator included.  [getFullPath] removes at most one
    separator at each place. *)
Lemma getFullPath_keeps_extra_separators :
  let config := {| endpoint := js "https://dav.example.com";
                   username := js "user"; password := js "secret";
                   basePath := None |} in
  getFullPath config (js "//a") = js "/a"
  /\ hasLeadingSlash (getFullPath config (js "//a")) = true
  /\ getFullPath config (js "a//b") = js "a//b"
  /\ hasDoubledSlash (getFullPath config (js "a//b")) = true.
Proof. repeat split. Qed.

(** C2, amended: when neither the configured base path nor the key
    contains a doubled separator, the resolved path contains no doubled
    separator and has no leading separator; it is the normalized base path
    and the normalized key with exactly one separator between them (the
    former does not end with a separator, the latter does not begin with
    one), or the normalized key alone when the normalized base path is
    empty. *)
Theorem getFullPath_separators (config : WebdevConfig) (key : jsstring) :
  (forall b, basePath config = Some b -> hasDoubledSlash b = false) ->
  hasDoubledSlash key = false ->
  hasDoubledSlash (getFullPath config key) = false
  /\ hasLeadingSlash (getFullPath config key) = false
  /\ endsWith (normalizedBasePath config) slash = false
  /\ hasLeadingSlash (stripLeadingSlash key) = false
  /\ getFullPath config key =
       match normalizedBasePath config with
       | [] => stripLeadingSlash key
       | _ :: _ => normalizedBasePath config ++ [slash] ++ stripLeadingSlash key
       end.
Proof.
  intros Hbase Hkey.
  destruct (normalizedBasePath_shape config Hbase) as (Hd & He & Hl).
  destruct (stripLeadingSlash_shape key Hkey) as [Kl Kd].
  unfold getFullPath.
  destruct (normalizedBasePath config) as [|c r] eqn:Eb; simpl truthy; cbv iota.
  - auto.
  - repeat split; auto.
    apply hasDoubledSlash_join; assumption.
Qed.

Lemma getFullPath_separators_witness :
  hasDoubledSlash (getFullPath Host.exampleConfig (js "/docs/readme.txt"))
  = false
  /\ hasLeadingSlash (getFullPath Host.exampleConfig (js "/docs/readme.txt"))
     = false
  /\ getFullPath Host.exampleConfig (js "/docs/readme.txt")
     = js "files/docs/readme.txt".
Proof.
  destruct (getFullPath_separators Host.exampleConfig (js "/docs/readme.txt"))
    as (H1 & H2 & _).
  - intros b [= <-]. reflexivity.
  - reflexivity.
  - repeat split; assumption.
Defined.

(** C3, as stated, fails: with the base path [/files/], the key [a]
    resolves to [files/a], and resolving that again gives
    [files/files/a]. *)
Lemma getFullPath_not_idempotent :
  getFullPath Host.exampleConfig (js "a") = js "files/a"
  /\ getFullPath Host.exampleConfig (getFullPath Host.exampleConfig (js "a"))
     = js "files/files/a"
  /\ getFullPath Host.exampleConfig (getFullPath Host.exampleConfig (js "a"))
     <> getFullPath Host.exampleConfig (js "a").
Proof. repeat split. discriminate. Qed.

(** C3, amended: resolution is a total function, and resolving an
    already-resolved path yields the same result exactly when the
    normalized base path is empty and the key does not begin with two
    separators; with a non-empty base path every further resolution
    prepends the base path again. *)
Theorem getFullPath_idempotent_iff (config : WebdevConfig) (key : jsstring) :
  getFullPath config (getFullPath config key) = getFullPath config key
  <-> normalizedBasePath config = []
      /\ isPrefixOf [slash; slash] key = false.
Proof.
  unfold getFullPath.
  destruct (normalizedBasePath config) as [|c r] eqn:Eb; simpl truthy; cbv iota.
  - rewrite stripLeadingSlash_fixed.
    destruct key as [|x [|y k]];
      cbn [isPrefixOf hasLeadingSlash stripLeadingSlash];
      rewrite ?(N.eqb_sym slash);
      repeat match goal with |- context [?a =? slash] =>
               destruct (a =? slash) eqn:?;
               cbn [isPrefixOf hasLeadingSlash stripLeadingSlash andb] end;
      intuition congruence.
  - split; [|intros [[=] _]].
    intros E. exfalso.
    do 2 apply app_inv_head in E. apply (f_equal (@length _)) in E.
    pose proof (stripLeadingSlash_length
                  ((c :: r) ++ [slash] ++ stripLeadingSlash key)) as L.
    rewrite E in L. rewrite !length_app in L. simpl in L. lia.
Qed.

(** ** Entity references *)

(** C4, as stated, fails: the [&] that [decodeXml] writes for [&amp;] is
    read again.  On the raw text [&amp;lt;report&amp;gt;] the first
    replacement leaves [&lt;report&gt;]; the replacements after it read that
    text and turn it into [<report>], which is what unescaping twice gives,
    where a single unescape stops at [&lt;report&gt;]. *)
Lemma decodeXml_decodes_again :
  replaceAll (js "&amp;") (js "&") (js "&amp;lt;report&amp;gt;")
    = js "&lt;report&gt;"
  /\ decodeXml (js "&amp;lt;report&amp;gt;") <> js "&lt;report&gt;"
  /\ decodeXml (js "&amp;lt;report&amp;gt;") = decodeXml (js "&lt;report&gt;")
  /\ unescapeOnce (js "&amp;lt;report&amp;gt;") = js "&lt;report&gt;"
  /\ decodeXml (js "&amp;lt;report&amp;gt;")
     = unescapeOnce (unescapeOnce (js "&amp;lt;report&amp;gt;"))
  /\ decodeXml (js "&amp;lt;report&amp;gt;")
     <> unescapeOnce (js "&amp;lt;report&amp;gt;").
Proof.
  split; [reflexivity|]. split; [discriminate|].
  split; [reflexivity|]. split; [reflexivity|].
  split; [reflexivity | discriminate].
Qed.

(** ** Scanning *)

Lemma isPrefixOf_true (p s : jsstring) :
  isPrefixOf p s = true -> s = p ++ skipn (length p) s.
Proof.
  revert s; induction p as [|x p IH]; intros [|y s]; simpl;
    try reflexivity; try discriminate.
  intros H. apply andb_true_iff in H. destruct H as [E H].
  apply N.eqb_eq in E. subst y. f_equal. apply IH, H.
Qed.

Lemma splitAt_Some (pat s before after : jsstring) :
  splitAt pat s = Some (before, after) -> s = before ++ pat ++ after.
Proof.
  revert before; induction s as [|c r IH]; intros before; simpl.
  - destruct (isPrefixOf pat []) eqn:E; [|discriminate].
    intros [= <- <-]. apply isPrefixOf_true in E. exact E.
  - destruct (isPrefixOf pat (c :: r)) eqn:E.
    + intros [= <- <-]. apply isPrefixOf_true in E. exact E.
    + destruct (splitAt pat r) as [[b a]|]; [|discriminate].
      intros [= <- <-]. simpl. f_equal. apply IH. reflexivity.
Qed.

Lemma execAny_Some (open close s capture rest : jsstring) :
  execAny open close s = Some (capture, rest) ->
  exists before, s = before ++ open ++ capture ++ close ++ rest.
Proof.
  unfold execAny. destruct (splitAt open s) as [[b a]|] eqn:E; [|discriminate].
  intros H. apply splitAt_Some in E. apply splitAt_Some in H.
  exists b. now rewrite E, H.
Qed.

(** The rounds of the [exec] loop never run out: any number of rounds
    that is at least the length of the body gives the same captures. *)
Lemma responseBlocksFuel_stable (n m : nat) (xml : jsstring) :
  (length xml <= n)%nat -> (length xml <= m)%nat ->
  responseBlocksFuel n xml = responseBlocksFuel m xml.
Proof.
  revert m xml; induction n as [|n IH]; intros [|m] xml Hn Hm;
    try reflexivity.
  - destruct xml; [reflexivity | simpl in Hn; lia].
  - destruct xml; [reflexivity | simpl in Hm; lia].
  - simpl.
    destruct (execAny (js "<D:response>") (js "</D:response>") xml)
      as [[response rest]|] eqn:E; [|reflexivity].
    f_equal. apply execAny_Some in E. destruct E as [before E].
    apply (f_equal (@length _)) in E. rewrite !length_app in E.
    change (length (js "<D:response>")) with 12%nat in E.
    apply IH; lia.
Qed.

Lemma responseBlocksFuel_enough (n : nat) (xml : jsstring) :
  (length xml <= n)%nat -> responseBlocksFuel n xml = responseBlocks xml.
Proof. intros H. apply responseBlocksFuel_stable; [exact H | lia]. Qed.

(** The [exec] loop unfolded once. *)
Lemma responseBlocks_step (xml : jsstring) :
  responseBlocks xml =
    match execAny (js "<D:response>") (js "</D:response>") xml with
    | None => []
    | Some (response, rest) => response :: responseBlocks rest
    end.
Proof.
  unfold responseBlocks at 1. destruct xml as [|c r]; [reflexivity|].
  cbn [length responseBlocksFuel].
  destruct (execAny (js "<D:response>") (js "</D:response>") (c :: r))
    as [[response rest]|] eqn:E; [|reflexivity].
  f_equal. apply responseBlocksFuel_enough.
  apply execAny_Some in E. destruct E as [before E].
  apply (f_equal (@length _)) in E. rewrite !length_app in E.
  change (length (js "<D:response>")) with 12%nat in E.
  simpl in E. lia.
Qed.

(** ** The listing parse *)

Section ListingFacts.
Variable decodeURIComponent : jsstring -> Outcome jsstring.
Variable localeCompare : jsstring -> jsstring -> Z.


(** One round of the loop, in terms of what it reads of the block. *)
Lemma processResponse_spec (fullPrefix response : jsstring)
    (objs : list S3Object) (prefs : list jsstring) :
  processResponse decodeURIComponent fullPrefix response (objs, prefs) =
    match hrefOf response with
    | None => Return (objs, prefs)
    | Some href =>
        if negb (truthy (displayNameOf response)) then Return (objs, prefs)
        else
          match decodeURIComponent href with
          | Throw e => Throw e
          | Return decoded =>
              if isCurrentPath fullPrefix decoded then Return (objs, prefs)
              else Return (objs ++ [entryOf response],
                           if isDirectoryOf response
                           then prefs ++ [displayNameOf response] else prefs)
          end
    end.
Proof.
  unfold processResponse, hrefOf, entryOf, sizeOf, contentLengthOf,
    lastModifiedOf, isDirectoryOf, displayNameOf.
  destruct (matchDot (js "<D:href>") (js "</D:href>") response) as [h|];
    [|reflexivity].
  cbn [option_map].
  destruct (negb (truthy _)); [reflexivity|].
  destruct (decodeURIComponent (decodeXml h)) as [decoded|e]; [|reflexivity].
  destruct (isCurrentPath fullPrefix decoded); [reflexivity|].
  destruct (matchAny _ _ response) as [t|]; [|reflexivity].
  destruct (includes t _); reflexivity.
Qed.

(** A round either throws or keeps the arrays or pushes the block's
    entry. *)
Lemma processResponse_listed (fullPrefix response : jsstring)
    (objs : list S3Object) (prefs : list jsstring) (acc' : Collected) :
  processResponse decodeURIComponent fullPrefix response (objs, prefs)
  = Return acc' ->
  let kept := filter (listed decodeURIComponent fullPrefix) [response] in
  acc' = (objs ++ map entryOf kept,
          prefs ++ map displayNameOf (filter isDirectoryOf kept)).
Proof.
  rewrite processResponse_spec. cbv zeta. unfold listed. cbn [filter].
  destruct (hrefOf response) as [href|].
  2:{ intros [= <-]. cbn. now rewrite !app_nil_r. }
  destruct (truthy (displayNameOf response)); cbn [negb andb].
  2:{ intros [= <-]. cbn. now rewrite !app_nil_r. }
  destruct (decodeURIComponent href) as [decoded|e]; [|discriminate].
  destruct (isCurrentPath fullPrefix decoded); cbn [negb].
  { intros [= <-]. cbn. now rewrite !app_nil_r. }
  intros [= <-]. cbn [filter map].
  destruct (isDirectoryOf response); cbn [map]; now rewrite ?app_nil_r.
Qed.

(** The whole loop, when it does not throw: the arrays receive the
    entries of the listed blocks, in the order of the body. *)
Lemma parseLoop_listed (fullPrefix : jsstring) (responses : list jsstring) :
  forall objs prefs objs' prefs',
  parseLoop decodeURIComponent fullPrefix responses (objs, prefs)
  = Return (objs', prefs') ->
  let kept := filter (listed decodeURIComponent fullPrefix) responses in
  objs' = objs ++ map entryOf kept
  /\ prefs' = prefs ++ map displayNameOf (filter isDirectoryOf kept).
Proof.
  induction responses as [|response rest IH]; intros objs prefs objs' prefs'.
  - simpl. intros [= <- <-]. now rewrite !app_nil_r.
  - cbn [parseLoop].
    destruct (processResponse decodeURIComponent fullPrefix response
                (objs, prefs)) as [[objs1 prefs1]|e] eqn:E; [|discriminate].
    apply processResponse_listed in E. cbv zeta in E. injection E as -> ->.
    intros H. apply IH in H. cbv zeta in H |- *. destruct H as [-> ->].
    change (response :: rest) with ([response] ++ rest).
    rewrite !filter_app, !map_app, !app_assoc. split; reflexivity.
Qed.

Lemma parseLoop_app (fullPrefix : jsstring) (l1 l2 : list jsstring)
    (acc : Collected) :
  parseLoop decodeURIComponent fullPrefix (l1 ++ l2) acc =
    match parseLoop decodeURIComponent fullPrefix l1 acc with
    | Return acc' => parseLoop decodeURIComponent fullPrefix l2 acc'
    | Throw e => Throw e
    end.
Proof.
  revert acc; induction l1 as [|r l1 IH]; intros acc; [reflexivity|].
  simpl. destruct (processResponse decodeURIComponent fullPrefix r acc);
    [apply IH | reflexivity].
Qed.

(** A listed block's href is not the current path, with or without a
    trailing separator. *)
Lemma listed_not_current (fullPrefix response : jsstring) :
  listed decodeURIComponent fullPrefix response = true ->
  exists href decoded,
    hrefOf response = Some href
    /\ decodeURIComponent href = Return decoded
    /\ displayNameOf response <> []
    /\ stripLeadingSlash decoded <> stripLeadingSlash fullPrefix
    /\ stripLeadingSlash decoded <> stripLeadingSlash fullPrefix ++ [slash].
Proof.
  unfold listed. destruct (hrefOf response) as [href|]; [|discriminate].
  destruct (decodeURIComponent href) as [decoded|e] eqn:Ed;
    [|rewrite andb_false_r; discriminate].
  intros H. apply andb_true_iff in H. destruct H as [Hn Hc].
  exists href, decoded.
  split; [reflexivity|]. split; [exact Ed|]. split; [|split].
  - intros E. rewrite E in Hn. discriminate.
  - intros E. unfold isCurrentPath in Hc.
    apply jsEqb_eq in E. rewrite E in Hc. discriminate.
  - intros E. unfold isCurrentPath in Hc.
    apply jsEqb_eq in E. rewrite E, orb_true_r in Hc. discriminate.
Qed.
End ListingFacts.

(** ** Sorting *)

Section ArraySortFacts.
Context {A : Type} (comparefn : A -> A -> Z).

Let le (a b : A) : Prop := (comparefn a b <= 0)%Z.

Lemma insertSorted_perm (x : A) (l : list A) :
  Permutation (insertSorted comparefn x l) (x :: l).
Proof.
  induction l as [|y l IH]; simpl; [reflexivity|].
  destruct (comparefn x y <=? 0)%Z; [reflexivity|].
  rewrite IH. apply perm_swap.
Qed.

Lemma arraySort_perm (l : list A) : Permutation (arraySort comparefn l) l.
Proof.
  induction l as [|x l IH]; simpl; [reflexivity|].
  rewrite insertSorted_perm. now constructor.
Qed.

Hypothesis le_trans : forall a b c, le a b -> le b c -> le a c.
Hypothesis le_total : forall a b, le a b \/ le b a.

Lemma insertSorted_sorted (x : A) (l : list A) :
  StronglySorted le l -> StronglySorted le (insertSorted comparefn x l).
Proof.
  induction 1 as [|y l Hl IH Hy]; simpl.
  - constructor; constructor.
  - destruct (comparefn x y <=? 0)%Z eqn:E.
    + apply Z.leb_le in E.
      constructor; [constructor; assumption|].
      constructor; [exact E|].
      eapply Forall_impl; [|exact Hy]. intros z Hz. eapply le_trans; eauto.
    + apply Z.leb_gt in E.
      constructor; [exact IH|].
      eapply Permutation_Forall; [symmetry; apply insertSorted_perm|].
      constructor; [|exact Hy].
      destruct (le_total x y) as [H|H]; [unfold le in H; lia | exact H].
Qed.

Lemma arraySort_sorted (l : list A) : StronglySorted le (arraySort comparefn l).
Proof.
  induction l as [|x l IH]; simpl; [constructor|].
  apply insertSorted_sorted, IH.
Qed.
End ArraySortFacts.

(** The order of code units is a consistent comparison. *)
Lemma Host_localeCompare_total (a b : jsstring) :
  (Host.localeCompare a b <= 0)%Z \/ (Host.localeCompare b a <= 0)%Z.
Proof.
  revert b; induction a as [|x a IH]; intros [|y b]; simpl; try lia.
  rewrite (N.compare_antisym x y).
  destruct (N.compare x y); simpl; try lia. apply IH.
Qed.

Lemma Host_localeCompare_trans (a b c : jsstring) :
  (Host.localeCompare a b <= 0)%Z -> (Host.localeCompare b c <= 0)%Z ->
  (Host.localeCompare a c <= 0)%Z.
Proof.
  revert b c; induction a as [|x a IH]; intros [|y b] [|z c]; simpl; try lia.
  destruct (N.compare_spec x y), (N.compare_spec y z), (N.compare_spec x z);
    subst; try lia.
  apply IH.
Qed.

(** ** The order of the listing *)

Section ListingOrder.
Variable decodeURIComponent : jsstring -> Outcome jsstring.
Variable localeCompare : jsstring -> jsstring -> Z.

(** [localeCompare] is required to define a total ordering of strings. *)
Hypothesis localeCompare_trans : forall a b c,
  (localeCompare a b <= 0)%Z -> (localeCompare b c <= 0)%Z ->
  (localeCompare a c <= 0)%Z.
Hypothesis localeCompare_total : forall a b,
  (localeCompare a b <= 0)%Z \/ (localeCompare b a <= 0)%Z.

Let byName (a b : S3Object) : Prop :=
  (localeCompare (name a) (name b) <= 0)%Z.

Let before (a b : S3Object) : Prop :=
  (compareObjects localeCompare a b <= 0)%Z.

Lemma compareObjects_trans (a b c : S3Object) :
  before a b -> before b c -> before a c.
Proof.
  unfold before, compareObjects.
  destruct (isDirectory a), (isDirectory b), (isDirectory c); simpl;
    try lia; apply localeCompare_trans.
Qed.

Lemma compareObjects_total (a b : S3Object) : before a b \/ before b a.
Proof.
  unfold before, compareObjects.
  destruct (isDirectory a), (isDirectory b); simpl;
    try lia; apply localeCompare_total.
Qed.

(** A list in the order of [compareObjects] is its directories, in the
    order of their names, followed by its files, in the order of
    theirs. *)
Lemma sorted_directories_first (l : list S3Object) :
  StronglySorted before l ->
  exists directories files,
    l = directories ++ files
    /\ Forall (fun o => isDirectory o = true) directories
    /\ Forall (fun o => isDirectory o = false) files
    /\ StronglySorted byName directories
    /\ StronglySorted byName files.
Proof.
  induction 1 as [|a l Hl IH Ha].
  - exists [], []. repeat split; constructor.
  - destruct IH as (ds & fs & -> & Hds & Hfs & Sds & Sfs).
    destruct (isDirectory a) eqn:Da.
    + exists (a :: ds), fs. repeat split; auto.
      constructor; [exact Sds|].
      apply Forall_app in Ha. destruct Ha as [Ha _].
      rewrite Forall_forall in Ha, Hds |- *. intros x Hx.
      specialize (Ha x Hx). specialize (Hds x Hx).
      unfold before, compareObjects in Ha. rewrite Da, Hds in Ha. exact Ha.
    + assert (ds = []) as ->.
      { destruct ds as [|d ds]; [reflexivity|]. exfalso.
        apply Forall_inv in Ha. apply Forall_inv in Hds.
        unfold before, compareObjects in Ha. rewrite Da, Hds in Ha.
        simpl in Ha. lia. }
      exists [], (a :: fs). repeat split; auto; try constructor; auto.
      simpl in Ha. rewrite Forall_forall in Ha, Hfs |- *. intros x Hx.
      specialize (Ha x Hx). specialize (Hfs x Hx).
      unfold before, compareObjects in Ha. rewrite Da, Hfs in Ha. exact Ha.
Qed.

(** C6: the objects of a returned listing are the kept entries of the
    body, rearranged so that every directory comes before every file and,
    within the directories and within the files, names follow one another
    in the order of [localeCompare]; the order of the entries in the body
    does not matter. *)
Theorem parsePropfindResponse_sorted
    (xml fullPrefix displayPrefix : jsstring) (listing : ListObjectsResult) :
  parsePropfindResponse decodeURIComponent localeCompare
    xml fullPrefix displayPrefix = Return listing ->
  exists directories files,
    objects listing = directories ++ files
    /\ Forall (fun o => isDirectory o = true) directories
    /\ Forall (fun o => isDirectory o = false) files
    /\ StronglySorted
         (fun a b => (localeCompare (name a) (name b) <= 0)%Z) directories
    /\ StronglySorted
         (fun a b => (localeCompare (name a) (name b) <= 0)%Z) files
    /\ Permutation (objects listing)
         (map entryOf
            (filter (listed decodeURIComponent fullPrefix)
               (responseBlocks xml))).
Proof.
  unfold parsePropfindResponse.
  destruct (parseLoop decodeURIComponent fullPrefix (responseBlocks xml)
              ([], [])) as [[objs prefs]|e] eqn:E; [|discriminate].
  intros [= <-]. cbn [objects].
  apply parseLoop_listed in E. destruct E as [-> _]. cbn [app].
  destruct (sorted_directories_first
              (arraySort (compareObjects localeCompare)
                 (map entryOf
                    (filter (listed decodeURIComponent fullPrefix)
                       (responseBlocks xml)))))
    as (ds & fs & E & H1 & H2 & H3 & H4).
  { apply arraySort_sorted;
      [exact compareObjects_trans | exact compareObjects_total]. }
  exists ds, fs. repeat split; auto.
  apply arraySort_perm.
Qed.
End ListingOrder.

Lemma parsePropfindResponse_sorted_witness :
  match parsePropfindResponse Host.decodeURIComponent Host.localeCompare
          Sample.mixedBody [] [] with
  | Throw _ => False
  | Return listing =>
      map name (objects listing) = [js "A"; js "a"; js "b"]
      /\ map isDirectory (objects listing) = [true; false; false]
      /\ exists directories files,
           objects listing = directories ++ files
           /\ Forall (fun o => isDirectory o = true) directories
           /\ Forall (fun o => isDirectory o = false) files
           /\ StronglySorted
                (fun a b => (Host.localeCompare (name a) (name b) <= 0)%Z)
                directories
           /\ StronglySorted
                (fun a b => (Host.localeCompare (name a) (name b) <= 0)%Z)
                files
           /\ Permutation (objects listing)
                (map entryOf
                   (filter (listed Host.decodeURIComponent [])
                      (responseBlocks Sample.mixedBody)))
  end.
Proof.
  destruct (parsePropfindResponse Host.decodeURIComponent Host.localeCompare
              Sample.mixedBody [] []) as [listing|e] eqn:E.
  - split; [|split].
    + vm_compute in E. injection E as <-. reflexivity.
    + vm_compute in E. injection E as <-. reflexivity.
    + exact (parsePropfindResponse_sorted
               Host.decodeURIComponent Host.localeCompare
               Host_localeCompare_trans Host_localeCompare_total
               Sample.mixedBody [] [] listing E).
  - vm_compute in E. discriminate.
Defined.

(** ** Numbers *)

Lemma parseDigits_nonneg (s : jsstring) (v : Z) :
  (0 <= v)%Z -> exists z, parseDigits (Some v) s = Some z /\ (0 <= z)%Z.
Proof.
  revert v; induction s as [|c r IH]; intros v Hv; cbn [parseDigits].
  - eauto.
  - destruct (isDigit c); [|eauto]. apply IH. lia.
Qed.

(** *** Rounding to a double *)

Lemma nearestDouble_nonneg (v d : Z) :
  (0 <= v)%Z -> nearestDouble v = Some d -> (0 <= d)%Z.
Proof.
  intros Hv. unfold nearestDouble.
  destruct (Z.log2 v + 1 <=? 53)%Z; [now intros [= <-]|].
  set (e := (Z.log2 v + 1 - 53)%Z).
  assert (0 <= Z.shiftr v e)%Z as Hq by now apply Z.shiftr_nonneg.
  destruct (Z.shiftl 1 1024 <=? _)%Z; [discriminate|]. intros [= <-].
  apply Z.shiftl_nonneg.
  destruct (_ || _); lia.
Qed.

Lemma nearestDouble_exact (v : Z) :
  (0 <= v < 2 ^ 53)%Z -> nearestDouble v = Some v.
Proof.
  intros Hv. unfold nearestDouble.
  destruct (Z.leb_spec (Z.log2 v + 1) 53) as [_|H]; [reflexivity|].
  exfalso. destruct (Z.eq_dec v 0) as [->|Hn]; [cbn in H; lia|].
  assert (Z.log2 v < 53)%Z; [|lia].
  apply Z.log2_lt_pow2; lia.
Qed.

Lemma toNumber_exact (z : Z) :
  (Z.abs z < 2 ^ 53)%Z -> toNumber z = Num z.
Proof.
  intros H. unfold toNumber. rewrite nearestDouble_exact by lia.
  f_equal. rewrite Z.mul_comm. apply Z.abs_sgn.
Qed.

Lemma toNumber_nonneg (z : Z) :
  (0 <= z)%Z ->
  toNumber z = Infinity false
  \/ exists d, toNumber z = Num d /\ (0 <= d)%Z.
Proof.
  intros H. unfold toNumber.
  destruct (nearestDouble (Z.abs z)) as [d|] eqn:E.
  - right. eexists. split; [reflexivity|].
    apply nearestDouble_nonneg in E; [|lia].
    apply Z.mul_nonneg_nonneg; lia.
  - left. destruct (Z.ltb_spec z 0); [lia | reflexivity].
Qed.

(** *** [parseInt] *)

Lemma digit_not_white (c : codeunit) :
  isDigit c = true ->
  isStrWhiteSpace c = false /\ (c =? 45) = false /\ (c =? 43) = false.
Proof.
  intros D.
  assert (48 <= c <= 57) as R.
  { unfold isDigit, inRange in D. apply andb_true_iff in D.
    rewrite !N.leb_le in D. exact D. }
  repeat split.
  - unfold isStrWhiteSpace, inRange.
    repeat match goal with
           | |- context [?a <=? ?b] => destruct (N.leb_spec a b); try lia
           | |- context [?a =? ?b] => destruct (N.eqb_spec a b); try lia
           end; reflexivity.
  - apply N.eqb_neq. lia.
  - apply N.eqb_neq. lia.
Qed.

(** A text that begins with a digit reads as the value of its leading
    digits, rounded. *)
Lemma parseInt10_digits (m : jsstring) :
  startsWithDigit m = true ->
  exists v, parseDigits None m = Some v /\ (0 <= v)%Z
            /\ parseInt10 m = toNumber v.
Proof.
  destruct m as [|c r]; [discriminate|]. cbn [startsWithDigit]. intros D.
  destruct (digit_not_white c D) as (W & M & P).
  unfold parseInt10. cbn [trimStart]. rewrite W, M, P.
  cbn [parseDigits]. rewrite D.
  destruct (parseDigits_nonneg r (10 * 0 + Z.of_N (c - 48))%Z) as (z & E & Hz);
    [lia|].
  rewrite E. exists z. repeat split; [exact Hz|].
  f_equal. lia.
Qed.

Lemma parseInt10_numeral (m : jsstring) :
  startsWithDigit m = true ->
  parseInt10 m = Infinity false
  \/ exists z, parseInt10 m = Num z /\ (0 <= z)%Z.
Proof.
  intros D. destruct (parseInt10_digits m D) as (v & _ & Hv & ->).
  now apply toNumber_nonneg.
Qed.

(** Reading a decimal numeral gives back the number it was written
    from. *)
Lemma parseDigits_uint (rest : jsstring) (d d' : Decimal.uint) :
  startsWithDigit rest = false ->
  parseDigits (Some (Z.of_N (DecimalPos.Unsigned.of_lu d')))
    (js (NilEmpty.string_of_uint d) ++ rest)
  = Some (Z.of_N (DecimalPos.Unsigned.of_lu (Decimal.revapp d d'))).
Proof.
  intros Hr. revert d'.
  induction d as [|d IH|d IH|d IH|d IH|d IH|d IH|d IH|d IH|d IH|d IH];
    intros d'; cbn [NilEmpty.string_of_uint Decimal.revapp];
    [ change (js "") with (@nil N); cbn [app];
      destruct rest as [|c r]; [reflexivity|];
      cbn [startsWithDigit] in Hr; cbn [parseDigits]; now rewrite Hr
    | rewrite <- IH; unfold js; cbn [list_ascii_of_string map app];
      cbn [parseDigits];
      match goal with
      | |- context [isDigit ?c] => change (isDigit c) with true; cbv iota
      end;
      do 2 f_equal; cbn [DecimalPos.Unsigned.of_lu];
      match goal with
      | |- context [N_of_ascii ?a - 48] =>
          let k := eval vm_compute in (N_of_ascii a - 48) in
          change (N_of_ascii a - 48) with k
      end; lia .. ].
Qed.

Lemma to_uint_nonnil (n : N) : N.to_uint n <> Decimal.Nil.
Proof.
  destruct n as [|p]; [discriminate|].
  apply DecimalPos.Unsigned.to_uint_nonnil.
Qed.

Lemma parseDigits_numToString (n : N) (rest : jsstring) :
  startsWithDigit rest = false ->
  startsWithDigit (numToString n ++ rest) = true
  /\ parseDigits None (numToString n ++ rest) = Some (Z.of_N n).
Proof.
  intros Hr. unfold numToString.
  pose proof (to_uint_nonnil n) as Hn.
  pose proof (parseDigits_uint rest (N.to_uint n) Decimal.Nil Hr) as H.
  change (Decimal.revapp (N.to_uint n) Decimal.Nil)
    with (Decimal.rev (N.to_uint n)) in H.
  rewrite <- DecimalPos.Unsigned.of_uint_alt in H.
  change (Pos.of_uint (N.to_uint n)) with (N.of_uint (N.to_uint n)) in H.
  rewrite DecimalN.Unsigned.of_to in H.
  replace (NilZero.string_of_uint (N.to_uint n))
    with (NilEmpty.string_of_uint (N.to_uint n))
    by (destruct (N.to_uint n); [congruence | reflexivity ..]).
  rewrite <- H. clear H.
  destruct (N.to_uint n); [congruence | ..];
    (split; [reflexivity|]);
    cbn [NilEmpty.string_of_uint]; unfold js;
    cbn [list_ascii_of_string map app parseDigits DecimalPos.Unsigned.of_lu];
    match goal with
    | |- context [isDigit ?c] => change (isDigit c) with true; cbv iota
    end; reflexivity.
Qed.

(** [parseInt] of the decimal numeral of [n], whatever follows it, is [n]
    rounded, and [n] itself below 2^53. *)
Lemma parseInt10_numToString (n : N) (rest : jsstring) :
  startsWithDigit rest = false ->
  parseInt10 (numToString n ++ rest) = toNumber (Z.of_N n)
  /\ (n < 2 ^ 53 -> parseInt10 (numToString n ++ rest) = Num (Z.of_N n)).
Proof.
  intros Hr. destruct (parseDigits_numToString n rest Hr) as [D P].
  destruct (parseInt10_digits _ D) as (v & Hv & _ & ->).
  rewrite P in Hv. injection Hv as <-. split; [reflexivity|].
  intros H. apply toNumber_exact.
  rewrite Z.abs_eq by lia. change (2 ^ 53)%Z with (Z.of_N (2 ^ 53)). lia.
Qed.

(** ** The contents of the listing *)

Section ListingContents.
Variable decodeURIComponent : jsstring -> Outcome jsstring.
Variable localeCompare : jsstring -> jsstring -> Z.


(** What a returned listing holds: the entries of the listed blocks. *)
Lemma parsePropfindResponse_listed
    (xml fullPrefix displayPrefix : jsstring) (listing : ListObjectsResult) :
  parsePropfindResponse decodeURIComponent localeCompare
    xml fullPrefix displayPrefix = Return listing ->
  (forall o, In o (objects listing) <->
             exists response,
               In response (responseBlocks xml)
               /\ listed decodeURIComponent fullPrefix response = true
               /\ o = entryOf response)
  /\ prefixes listing =
       map displayNameOf
         (filter isDirectoryOf
            (filter (listed decodeURIComponent fullPrefix)
               (responseBlocks xml)))
  /\ isTruncated listing = false
  /\ nextContinuationToken listing = None.
Proof.
  unfold parsePropfindResponse.
  destruct (parseLoop decodeURIComponent fullPrefix (responseBlocks xml)
              ([], [])) as [[objs prefs]|e] eqn:E; [|discriminate].
  intros [= <-]. cbn [objects prefixes isTruncated nextContinuationToken].
  apply parseLoop_listed in E. destruct E as [-> ->]. cbn [app].
  repeat split; auto.
  - intros H. eapply Permutation_in in H; [|apply arraySort_perm].
    apply in_map_iff in H. destruct H as (response & <- & H).
    apply filter_In in H. destruct H. eauto.
  - intros (response & Hin & Hl & ->).
    eapply Permutation_in; [symmetry; apply arraySort_perm|].
    apply in_map, filter_In. auto.
Qed.

(** The round on a block whose href is the current path changes
    nothing. *)
Lemma parseLoop_skips_current (fullPrefix : jsstring)
    (before : list jsstring) (response : jsstring) (after : list jsstring)
    (acc : Collected) (href decoded : jsstring) :
  hrefOf response = Some href ->
  decodeURIComponent href = Return decoded ->
  isCurrentPath fullPrefix decoded = true ->
  parseLoop decodeURIComponent fullPrefix (before ++ response :: after) acc
  = parseLoop decodeURIComponent fullPrefix (before ++ after) acc.
Proof.
  intros Hh Hd Hc. rewrite !parseLoop_app.
  destruct (parseLoop decodeURIComponent fullPrefix before acc)
    as [[objs prefs]|e]; [|reflexivity].
  cbn [parseLoop]. rewrite processResponse_spec, Hh, Hd, Hc.
  destruct (negb _); reflexivity.
Qed.

(** A round throws only what [decodeURIComponent] throws on the href of a
    block that has a display name. *)
Lemma processResponse_throws (fullPrefix response : jsstring)
    (acc : Collected) (e : Thrown) :
  processResponse decodeURIComponent fullPrefix response acc = Throw e ->
  exists href,
    hrefOf response = Some href
    /\ displayNameOf response <> []
    /\ decodeURIComponent href = Throw e.
Proof.
  destruct acc as [objs prefs]. rewrite processResponse_spec.
  destruct (hrefOf response) as [href|]; [|discriminate].
  destruct (displayNameOf response) as [|c r] eqn:En; cbn [truthy negb];
    [discriminate|].
  destruct (decodeURIComponent href) as [decoded|e'] eqn:Ed.
  - destruct (isCurrentPath fullPrefix decoded); discriminate.
  - intros [= <-]. exists href. repeat split; [discriminate | exact Ed].
Qed.

(** The parse returns a listing whenever [decodeURIComponent] accepts the
    href of every block that has a display name. *)
Lemma parseLoop_returns (fullPrefix : jsstring) (responses : list jsstring) :
  (forall response href,
     In response responses -> hrefOf response = Some href ->
     displayNameOf response <> [] ->
     exists decoded, decodeURIComponent href = Return decoded) ->
  forall acc, exists acc',
    parseLoop decodeURIComponent fullPrefix responses acc = Return acc'.
Proof.
  induction responses as [|response rest IH]; intros H acc; cbn [parseLoop].
  - eauto.
  - destruct (processResponse decodeURIComponent fullPrefix response acc)
      as [acc1|e] eqn:E.
    + apply IH. intros r href Hin. apply H. now right.
    + exfalso. apply processResponse_throws in E.
      destruct E as (href & Hh & Hn & Ht).
      destruct (H response href (or_introl eq_refl) Hh Hn) as [d Hd].
      congruence.
Qed.

Lemma parsePropfindResponse_returns (xml fullPrefix displayPrefix : jsstring) :
  (forall response href,
     In response (responseBlocks xml) -> hrefOf response = Some href ->
     displayNameOf response <> [] ->
     exists decoded, decodeURIComponent href = Return decoded) ->
  exists listing,
    parsePropfindResponse decodeURIComponent localeCompare
      xml fullPrefix displayPrefix = Return listing.
Proof.
  intros H. unfold parsePropfindResponse.
  destruct (parseLoop_returns fullPrefix (responseBlocks xml) H ([], []))
    as [[objs prefs] ->].
  eauto.
Qed.

(** X21: what the test of lines 136-138 excludes.  Every object and every
    prefix of a returned listing comes from a response block of the body
    whose href, decoded and stripped of a leading separator, is neither
    the resolved prefix (stripped likewise) nor that prefix followed by a
    separator; and the round of the loop on a block whose href is one of
    the two leaves both arrays as they are. *)
Theorem parsePropfindResponse_excludes_current_path :
  (forall xml fullPrefix displayPrefix listing,
     parsePropfindResponse decodeURIComponent localeCompare
       xml fullPrefix displayPrefix = Return listing ->
     (forall o, In o (objects listing) ->
        exists response href decoded,
          In response (responseBlocks xml)
          /\ o = entryOf response
          /\ hrefOf response = Some href
          /\ decodeURIComponent href = Return decoded
          /\ stripLeadingSlash decoded <> stripLeadingSlash fullPrefix
          /\ stripLeadingSlash decoded
             <> stripLeadingSlash fullPrefix ++ [slash])
     /\ (forall p, In p (prefixes listing) ->
           exists response href decoded,
             In response (responseBlocks xml)
             /\ p = displayNameOf response
             /\ hrefOf response = Some href
             /\ decodeURIComponent href = Return decoded
             /\ stripLeadingSlash decoded <> stripLeadingSlash fullPrefix
             /\ stripLeadingSlash decoded
                <> stripLeadingSlash fullPrefix ++ [slash]))
  /\ (forall fullPrefix before response after acc href decoded,
        hrefOf response = Some href ->
        decodeURIComponent href = Return decoded ->
        stripLeadingSlash decoded = stripLeadingSlash fullPrefix
        \/ stripLeadingSlash decoded
           = stripLeadingSlash fullPrefix ++ [slash] ->
        parseLoop decodeURIComponent fullPrefix
          (before ++ response :: after) acc
        = parseLoop decodeURIComponent fullPrefix (before ++ after) acc).
Proof.
  split.
  - intros xml fullPrefix displayPrefix listing H.
    apply parsePropfindResponse_listed in H. destruct H as (Ho & Hp & _).
    split.
    + intros o Hin. apply Ho in Hin. destruct Hin as (response & Hin & Hl & ->).
      destruct (listed_not_current _ _ _ Hl) as (href & decoded & H).
      exists response, href, decoded. tauto.
    + intros p Hin. rewrite Hp in Hin.
      apply in_map_iff in Hin. destruct Hin as (response & <- & Hin).
      apply filter_In in Hin. destruct Hin as [Hin _].
      apply filter_In in Hin. destruct Hin as [Hin Hl].
      destruct (listed_not_current _ _ _ Hl) as (href & decoded & H).
      exists response, href, decoded. tauto.
  - intros fullPrefix before response after acc href decoded Hh Hd Hc.
    apply (parseLoop_skips_current _ _ _ _ _ href decoded Hh Hd).
    unfold isCurrentPath. apply orb_true_iff.
    destruct Hc as [Hc|Hc]; [left | right]; apply jsEqb_eq; exact Hc.
Qed.
End ListingContents.

Lemma parsePropfindResponse_excludes_current_path_witness :
  match parsePropfindResponse Host.decodeURIComponent Host.localeCompare
          Sample.docsBody (js "files/docs/") (js "docs/") with
  | Throw _ => False
  | Return listing =>
      map key (objects listing) = [js "img"; js "readme.txt"]
      /\ prefixes listing = [js "img"]
      /\ forall o, In o (objects listing) ->
           exists response href decoded,
             In response (responseBlocks Sample.docsBody)
             /\ o = entryOf response
             /\ hrefOf response = Some href
             /\ Host.decodeURIComponent href = Return decoded
             /\ stripLeadingSlash decoded <> js "files/docs/"
             /\ stripLeadingSlash decoded <> js "files/docs//"
  end
  /\ parseLoop Host.decodeURIComponent (js "files/docs/")
       ([] ++ Sample.selfEntry :: [Sample.readmeEntry]) ([], [])
     = parseLoop Host.decodeURIComponent (js "files/docs/")
         ([] ++ [Sample.readmeEntry]) ([], []).
Proof.
  destruct (parsePropfindResponse_excludes_current_path
              Host.decodeURIComponent Host.localeCompare) as [Hkept Hskip].
  split.
  - destruct (parsePropfindResponse Host.decodeURIComponent Host.localeCompare
                Sample.docsBody (js "files/docs/") (js "docs/"))
      as [listing|e] eqn:E.
    + split; [|split].
      * vm_compute in E. injection E as <-. reflexivity.
      * vm_compute in E. injection E as <-. reflexivity.
      * exact (proj1 (Hkept _ _ _ _ E)).
    + vm_compute in E. discriminate.
  - apply (Hskip (js "files/docs/") [] Sample.selfEntry
             [Sample.readmeEntry] ([], [])
             (js "/files/docs/") (js "/files/docs/")).
    + reflexivity.
    + reflexivity.
    + left. reflexivity.
Defined.

(** C5: the directory's own entry is listed when the server writes its
    href without the trailing separator.  [listObjects] appends a separator
    to the prefix [docs] and resolves it to [files/docs/]; the href
    [/files/docs], stripped, is [files/docs], which is neither
    [files/docs/] nor [files/docs//], the two texts the parse compares it
    with.  The directory [docs] is returned among its own children, in the
    objects and in the prefixes; with the href [/files/docs/] it is not. *)
Lemma current_path_without_separator_listed :
  responseBlocks Sample.bareSelfBody
  = [Sample.bareSelfEntry; Sample.readmeEntry]
  /\ hrefOf Sample.bareSelfEntry = Some (js "/files/docs")
  /\ getFullPath Host.exampleConfig (js "docs/") = js "files/docs/"
  /\ isCurrentPath (js "files/docs/") (js "/files/docs") = false
  /\ isCurrentPath (js "files/docs/") (js "/files/docs/") = true
  /\ parsePropfindResponse Host.decodeURIComponent Host.localeCompare
       Sample.bareSelfBody (js "files/docs/") (js "docs/")
     = Return {| objects := [ {| key := js "docs"; name := js "docs";
                                 size := Num 0; lastModified := [];
                                 isDirectory := true; etag := None |};
                              {| key := js "readme.txt";
                                 name := js "readme.txt";
                                 size := Num 120; lastModified := [];
                                 isDirectory := false; etag := None |} ];
                 prefixes := [js "docs"];
                 isTruncated := false;
                 nextContinuationToken := None |}
  /\ snd (listObjects (Host.answering 207 Sample.bareSelfBody) Host.btoa
            Host.decodeURIComponent Host.localeCompare Host.exampleConfig
            (js "docs") [])
     = parsePropfindResponse Host.decodeURIComponent Host.localeCompare
         Sample.bareSelfBody (js "files/docs/") (js "docs/").
Proof. repeat split; vm_compute; reflexivity. Qed.

Section ListingTolerance.
Variable decodeURIComponent : jsstring -> Outcome jsstring.
Variable localeCompare : jsstring -> jsstring -> Z.

(** C7, amended: an entry without a display name is dropped and the loop
    goes on with the entries after it.  An entry without a content length
    whose href [decodeURIComponent] accepts is read with size 0 and the
    loop goes on with the entries after it: the round pushes exactly one
    object for it, of size 0 and with its display name, modification date
    and kind (and its name to the prefixes when it is a directory), unless
    the entry has an empty display name or is the queried directory
    itself; and that object is in the listing the parse returns. *)
Theorem missing_fields_tolerated :
  (forall fullPrefix before response after acc,
     matchDot (js "<D:displayname>") (js "</D:displayname>") response = None ->
     parseLoop decodeURIComponent fullPrefix (before ++ response :: after) acc
     = parseLoop decodeURIComponent fullPrefix (before ++ after) acc)
  /\ (forall fullPrefix before response after acc objs prefs hrefMatch decoded,
        matchDot (js "<D:getcontentlength>") (js "</D:getcontentlength>")
                 response = None ->
        matchDot (js "<D:href>") (js "</D:href>") response = Some hrefMatch ->
        decodeURIComponent (decodeXml hrefMatch) = Return decoded ->
        parseLoop decodeURIComponent fullPrefix before acc
        = Return (objs, prefs) ->
        parseLoop decodeURIComponent fullPrefix
          (before ++ response :: after) acc
        = parseLoop decodeURIComponent fullPrefix after
            (if truthy (displayNameOf response)
                && negb (isCurrentPath fullPrefix decoded)
             then (objs ++ [ {| key := displayNameOf response;
                                name := displayNameOf response;
                                size := Num 0;
                                lastModified := lastModifiedOf response;
                                isDirectory := isDirectoryOf response;
                                etag := None |} ],
                   if isDirectoryOf response
                   then prefs ++ [displayNameOf response] else prefs)
             else (objs, prefs)))
  /\ (forall xml fullPrefix displayPrefix listing response hrefMatch decoded,
        parsePropfindResponse decodeURIComponent localeCompare
          xml fullPrefix displayPrefix = Return listing ->
        In response (responseBlocks xml) ->
        matchDot (js "<D:getcontentlength>") (js "</D:getcontentlength>")
                 response = None ->
        matchDot (js "<D:href>") (js "</D:href>") response = Some hrefMatch ->
        decodeURIComponent (decodeXml hrefMatch) = Return decoded ->
        displayNameOf response <> [] ->
        isCurrentPath fullPrefix decoded = false ->
        In {| key := displayNameOf response;
              name := displayNameOf response;
              size := Num 0;
              lastModified := lastModifiedOf response;
              isDirectory := isDirectoryOf response;
              etag := None |} (objects listing)).
Proof.
  assert (forall response,
            matchDot (js "<D:getcontentlength>") (js "</D:getcontentlength>")
                     response = None ->
            entryOf response
            = {| key := displayNameOf response;
                 name := displayNameOf response;
                 size := Num 0;
                 lastModified := lastModifiedOf response;
                 isDirectory := isDirectoryOf response;
                 etag := None |}) as Hentry.
  { intros response Hc. unfold entryOf, sizeOf, contentLengthOf.
    rewrite Hc. destruct (isDirectoryOf response); reflexivity. }
  split; [|split].
  - intros fullPrefix before response after acc Hn. rewrite !parseLoop_app.
    destruct (parseLoop decodeURIComponent fullPrefix before acc)
      as [[objs prefs]|e]; [|reflexivity].
    cbn [parseLoop]. rewrite processResponse_spec.
    unfold displayNameOf. rewrite Hn. cbn [truthy negb].
    destruct (hrefOf response); reflexivity.
  - intros fullPrefix before response after acc objs prefs hrefMatch decoded
      Hc Hh Hd Hb.
    rewrite parseLoop_app, Hb. cbn [parseLoop].
    rewrite processResponse_spec. unfold hrefOf. rewrite Hh.
    cbn [option_map]. rewrite Hd, <- (Hentry response Hc).
    destruct (truthy (displayNameOf response)); cbn [negb andb];
      [|reflexivity].
    destruct (isCurrentPath fullPrefix decoded); reflexivity.
  - intros xml fullPrefix displayPrefix listing response hrefMatch decoded
      Hp Hin Hc Hh Hd Hn Hcur.
    rewrite <- (Hentry response Hc).
    apply parsePropfindResponse_listed in Hp. destruct Hp as (Ho & _).
    apply Ho. exists response. split; [exact Hin|]. split; [|reflexivity].
    unfold listed, hrefOf. rewrite Hh. cbn [option_map]. rewrite Hd, Hcur.
    destruct (displayNameOf response); [congruence | reflexivity].
Qed.
End ListingTolerance.

(** C7, as stated, fails: in a body whose first entry has no content
    length and the href [/files/docs/100%], [decodeURIComponent] throws on
    that href; the entry is not read with size 0, the loop does not reach
    the entry after it, and the listing call fails. *)
Lemma malformed_href_fails_listing :
  responseBlocks Sample.percentBody
  = [Sample.percentEntry; Sample.readmeEntry]
  /\ contentLengthOf Sample.percentEntry = None
  /\ displayNameOf Sample.percentEntry = js "100%"
  /\ parsePropfindResponse Host.decodeURIComponent Host.localeCompare
       Sample.percentBody (js "files/docs/") (js "docs/")
     = Throw (ErrorValue (js "URI malformed"))
  /\ snd (listObjects (Host.answering 207 Sample.percentBody) Host.btoa
            Host.decodeURIComponent Host.localeCompare Host.exampleConfig
            (js "docs") [])
     = Throw (ErrorValue (js "WebDAV listObjects failed: URI malformed")).
Proof. repeat split; vm_compute; reflexivity. Qed.

Lemma missing_fields_tolerated_witness :
  parseLoop Host.decodeURIComponent (js "files/docs/")
    ([Sample.selfEntry] ++ Sample.namelessEntry :: [Sample.readmeEntry])
    ([], [])
  = parseLoop Host.decodeURIComponent (js "files/docs/")
      ([Sample.selfEntry] ++ [Sample.readmeEntry]) ([], [])
  /\ parseLoop Host.decodeURIComponent (js "files/docs/")
       ([Sample.selfEntry] ++ Sample.sizelessEntry :: [Sample.readmeEntry])
       ([], [])
     = parseLoop Host.decodeURIComponent (js "files/docs/")
         [Sample.readmeEntry]
         ([ {| key := js "notes.txt"; name := js "notes.txt";
               size := Num 0; lastModified := [];
               isDirectory := false; etag := None |} ], [])
  /\ match parsePropfindResponse Host.decodeURIComponent Host.localeCompare
            Sample.sizelessBody (js "files/docs/") (js "docs/") with
     | Throw _ => False
     | Return listing =>
         map key (objects listing) = [js "notes.txt"; js "readme.txt"]
         /\ map size (objects listing) = [Num 0; Num 120]
         /\ In {| key := js "notes.txt"; name := js "notes.txt";
                  size := Num 0; lastModified := [];
                  isDirectory := false; etag := None |} (objects listing)
     end.
Proof.
  destruct (missing_fields_tolerated Host.decodeURIComponent
              Host.localeCompare) as (Hname & Hsize & Hlisted).
  split; [|split].
  - apply Hname. reflexivity.
  - etransitivity.
    + apply (Hsize (js "files/docs/") [Sample.selfEntry] Sample.sizelessEntry
               [Sample.readmeEntry] ([], []) [] []
               (js "/files/docs/notes.txt") (js "/files/docs/notes.txt"));
        reflexivity.
    + reflexivity.
  - destruct (parsePropfindResponse Host.decodeURIComponent Host.localeCompare
                Sample.sizelessBody (js "files/docs/") (js "docs/"))
      as [listing|e] eqn:E.
    + split; [|split].
      * vm_compute in E. injection E as <-. reflexivity.
      * vm_compute in E. injection E as <-. reflexivity.
      * apply (Hlisted Sample.sizelessBody (js "files/docs/") (js "docs/")
                 listing Sample.sizelessEntry
                 (js "/files/docs/notes.txt") (js "/files/docs/notes.txt") E).
        -- vm_compute. right. left. reflexivity.
        -- reflexivity.
        -- reflexivity.
        -- reflexivity.
        -- discriminate.
        -- reflexivity.
    + vm_compute in E. discriminate.
Defined.

(** C8, as stated, fails: a file whose content length reads [-5] is listed
    with the size -5, and one whose content length reads [abc] with the
    size [NaN]. *)
Lemma negative_and_non_numeric_sizes_listed :
  match parsePropfindResponse Host.decodeURIComponent Host.localeCompare
          Sample.negativeBody [] [] with
  | Throw _ => False
  | Return listing =>
      map key (objects listing) = [js "f"; js "g"]
      /\ map isDirectory (objects listing) = [false; false]
      /\ map size (objects listing) = [Num (-5); NaN]
  end.
Proof. vm_compute. repeat split. Qed.

Section ListingSizes.
Variable decodeURIComponent : jsstring -> Outcome jsstring.
Variable localeCompare : jsstring -> jsstring -> Z.

(** C8, amended: in a returned listing every directory entry has size
    exactly 0; a file entry has size 0 when its block has no content
    length and otherwise the value [parseInt] gives for the text of its own
    content length.  When that text begins with a decimal digit the size
    is never [NaN] and never negative: it is a non-negative integer or
    [Infinity]; when the text is the decimal numeral of [n], followed by
    anything but a digit, the size is the double nearest to [n], which is
    [n] itself below 2^53.  (A negative numeral gives a negative size and
    a text without digits gives [NaN].) *)
Theorem object_sizes
    (xml fullPrefix displayPrefix : jsstring) (listing : ListObjectsResult) :
  parsePropfindResponse decodeURIComponent localeCompare
    xml fullPrefix displayPrefix = Return listing ->
  forall o, In o (objects listing) ->
    (isDirectory o = true -> size o = Num 0)
    /\ (isDirectory o = false ->
        exists response,
          In response (responseBlocks xml)
          /\ key o = displayNameOf response
          /\ match matchDot (js "<D:getcontentlength>")
                            (js "</D:getcontentlength>") response with
             | None => size o = Num 0
             | Some m =>
                 size o = parseInt10 m
                 /\ (startsWithDigit m = true ->
                     size o = Infinity false
                     \/ exists z, size o = Num z /\ (0 <= z)%Z)
                 /\ (forall n rest,
                       m = numToString n ++ rest ->
                       startsWithDigit rest = false ->
                       size o = toNumber (Z.of_N n)
                       /\ (n < 2 ^ 53 -> size o = Num (Z.of_N n)))
             end).
Proof.
  intros H o Hin.
  apply parsePropfindResponse_listed in H. destruct H as (Ho & _).
  apply Ho in Hin. destruct Hin as (response & Hin & _ & ->).
  unfold entryOf. cbn [isDirectory size key].
  destruct (isDirectoryOf response).
  - split; [reflexivity | discriminate].
  - split; [discriminate|].
    intros _. exists response. split; [exact Hin|]. split; [reflexivity|].
    unfold sizeOf, contentLengthOf.
    destruct (matchDot (js "<D:getcontentlength>")
                (js "</D:getcontentlength>") response) as [m|];
      [|reflexivity].
    split; [reflexivity|]. split.
    + apply parseInt10_numeral.
    + intros n rest -> Hr. now apply parseInt10_numToString.
Qed.
End ListingSizes.

Lemma object_sizes_witness :
  match parsePropfindResponse Host.decodeURIComponent Host.localeCompare
          Sample.docsBody (js "files/docs/") (js "docs/") with
  | Throw _ => False
  | Return listing =>
      map size (objects listing) = [Num 0; Num 120]
      /\ forall o, In o (objects listing) ->
           (isDirectory o = true -> size o = Num 0)
           /\ (isDirectory o = false ->
               exists response,
                 In response (responseBlocks Sample.docsBody)
                 /\ key o = displayNameOf response
                 /\ match matchDot (js "<D:getcontentlength>")
                                   (js "</D:getcontentlength>") response with
                    | None => size o = Num 0
                    | Some m =>
                        size o = parseInt10 m
                        /\ (startsWithDigit m = true ->
                            size o = Infinity false
                            \/ exists z, size o = Num z /\ (0 <= z)%Z)
                        /\ (forall n rest,
                              m = numToString n ++ rest ->
                              startsWithDigit rest = false ->
                              size o = toNumber (Z.of_N n)
                              /\ (n < 2 ^ 53 -> size o = Num (Z.of_N n)))
                    end)
  end.
Proof.
  destruct (parsePropfindResponse Host.decodeURIComponent Host.localeCompare
              Sample.docsBody (js "files/docs/") (js "docs/"))
    as [listing|e] eqn:E.
  - split.
    + vm_compute in E. injection E as <-. reflexivity.
    + intros o Hin.
      exact (object_sizes Host.decodeURIComponent Host.localeCompare
               _ _ _ _ E o Hin).
  - vm_compute in E. discriminate.
Defined.

(** ** Status mapping *)

(** Unfolds a method down to the host calls and splits on their
    outcomes. *)
Ltac run_method fetch btoa :=
  unfold getBasicAuth, statusRun, tryCatch, bind, send, await, ret, throw,
    credentialsOf, ok;
  cbv beta iota zeta delta [jsstring codeunit];
  match goal with |- context [btoa ?c] => destruct (btoa c) end;
  cbv beta iota zeta; cbn [errorMessage]; [|reflexivity];
  match goal with |- context [fetch ?r] => destruct (fetch r) end;
  cbv beta iota zeta; cbn [errorMessage]; [|reflexivity];
  repeat match goal with
         | |- context [inRange ?a ?b ?c] => destruct (inRange a b c)
         | |- context [?a =? ?b] => destruct (a =? b)
         end;
  cbn [negb andb orb]; cbv beta iota zeta;
  try match goal with |- context [text ?r] => destruct (text r) end;
  cbv beta iota zeta; cbn [errorMessage]; reflexivity.

(** Settles the four parts of [StatusPolicy] in one case of a run. *)
Ltac policy_case :=
  cbn [snd];
  split;
  [ split;
    [ first [discriminate | intros _; eauto 6]
    | intros (? & ? & ? & ? & ?); congruence ]
  | ];
  split; [intros; congruence|];
  split; [intros; congruence|];
  intros ? H; first [discriminate H | injection H as <-; eauto].

Section StatusFacts.
Variable fetch : Request -> Outcome Response.
Variable btoa : jsstring -> Outcome jsstring.
Variable config : WebdevConfig.

(** A method that runs as [statusRun] meets the policy. *)
Lemma statusRun_policy (request : jsstring -> Request) (accepted : N -> bool)
    (operation failure : jsstring) (run : Async unit) :
  (forall log, run log
               = statusRun fetch btoa config request accepted
                   operation failure log) ->
  StatusPolicy fetch btoa config request accepted operation failure run.
Proof.
  intros Hrun log. rewrite Hrun. unfold statusRun.
  destruct (btoa (credentialsOf config)) as [encoded|eb] eqn:Eb;
    [|policy_case].
  destruct (fetch (request (js "Basic " ++ encoded))) as [response|ef] eqn:Ef;
    [|policy_case].
  destruct (accepted (status response)) eqn:Ea; [policy_case|].
  destruct (text response) as [content|et] eqn:Et; policy_case.
Qed.

Lemma deleteObject_run (key : jsstring) (log : list Request) :
  deleteObject fetch btoa config key log
  = statusRun fetch btoa config
      (fun auth => {| url := resourceUrl config key; method := js "DELETE";
                      headers := [(js "Authorization", auth)];
                      body := None |})
      (fun code => inRange 200 299 code || (code =? 204))
      (js "WebDAV deleteObject failed: ") (js "WebDAV DeleteObject failed: ")
      log.
Proof. unfold deleteObject. run_method fetch btoa. Qed.

Lemma createFolder_run (folderPath : jsstring) (log : list Request) :
  createFolder fetch btoa config folderPath log
  = statusRun fetch btoa config
      (fun auth => {| url := resourceUrl config
                               (if endsWith folderPath slash then folderPath
                                else folderPath ++ [slash]);
                      method := js "MKCOL";
                      headers := [(js "Authorization", auth)];
                      body := None |})
      (fun code => inRange 200 299 code || (code =? 201))
      (js "WebDAV createFolder failed: ") (js "WebDAV MKCOL failed: ")
      log.
Proof. unfold createFolder. run_method fetch btoa. Qed.

Lemma copyObject_run (sourceKey destKey : jsstring) (log : list Request) :
  copyObject fetch btoa config sourceKey destKey log
  = statusRun fetch btoa config
      (fun auth => {| url := resourceUrl config destKey;
                      method := js "COPY";
                      headers := [(js "Authorization", auth);
                                  (js "Destination",
                                   resourceUrl config destKey);
                                  (js "Overwrite", js "F")];
                      body := None |})
      (fun code => inRange 200 299 code || (code =? 201) || (code =? 204))
      (js "WebDAV copyObject failed: ") (js "WebDAV COPY failed: ")
      log.
Proof. unfold copyObject. run_method fetch btoa. Qed.

Lemma headObject_run (key : jsstring) (log : list Request) :
  headObject fetch btoa config key log
  = match btoa (credentialsOf config) with
    | Throw e =>
        (log, Throw (ErrorValue (js "WebDAV headObject failed: "
                                 ++ errorMessage e)))
    | Return encoded =>
        let request :=
          {| url := resourceUrl config key; method := js "HEAD";
             headers := [(js "Authorization", js "Basic " ++ encoded)];
             body := None |} in
        match fetch request with
        | Throw e =>
            (log ++ [request],
             Throw (ErrorValue (js "WebDAV headObject failed: "
                                ++ errorMessage e)))
        | Return response =>
            (log ++ [request],
             if status response =? 404 then Return None
             else if inRange 200 299 (status response) then
               Return
                 (Some {| Head.contentLength :=
                            parseInt10
                              (orElse
                                 (headersGet response (js "content-length"))
                                 (js "0"));
                          Head.contentType :=
                            orElse (headersGet response (js "content-type"))
                                   (js "application/octet-stream");
                          Head.lastModified :=
                            orElse (headersGet response (js "last-modified"))
                                   [] |})
             else
               Throw (ErrorValue (js "WebDAV headObject failed: "
                                  ++ js "WebDAV HeadObject failed: "
                                  ++ numToString (status response))))
        end
    end.
Proof. unfold headObject. run_method fetch btoa. Qed.

(** C1: [copyObject] sends one request (none when [btoa] throws): a COPY
    to the address resolved from [destKey], whose [Destination] header is
    that same address; the run is the same whatever [sourceKey] is, so
    nothing of the request or of the outcome depends on the source. *)
Theorem copyObject_request (sourceKey destKey : jsstring) (log : list Request) :
  fst (copyObject fetch btoa config sourceKey destKey log)
  = match btoa (credentialsOf config) with
    | Throw _ => log
    | Return encoded =>
        let destUrl := normalizeEndpoint (endpoint config) ++ [slash]
                       ++ getFullPath config destKey in
        log ++ [ {| url := destUrl;
                    method := js "COPY";
                    headers := [(js "Authorization", js "Basic " ++ encoded);
                                (js "Destination", destUrl);
                                (js "Overwrite", js "F")];
                    body := None |} ]
    end
  /\ forall otherSource,
       copyObject fetch btoa config otherSource destKey
       = copyObject fetch btoa config sourceKey destKey.
Proof.
  split; [|reflexivity].
  rewrite copyObject_run. unfold statusRun.
  destruct (btoa (credentialsOf config)) as [encoded|e]; [|reflexivity].
  cbv zeta.
  destruct (fetch _) as [response|e]; [|reflexivity].
  destruct (_ || _); [reflexivity|].
  destruct (text response); reflexivity.
Qed.

(** C9: when the transport answers the HEAD request, a status 404 makes
    [headObject] return the absent result, a status in the ok range makes
    it return the metadata read from the headers, and any other status
    makes it throw the failure that names the operation and the status;
    so a returned result always comes from a 404 or from an ok status. *)
Theorem headObject_status (key : jsstring) (log : list Request) :
  let request encoded :=
    {| url := resourceUrl config key; method := js "HEAD";
       headers := [(js "Authorization", js "Basic " ++ encoded)];
       body := None |} in
  (forall encoded response,
     btoa (credentialsOf config) = Return encoded ->
     fetch (request encoded) = Return response ->
     (status response = 404 ->
      snd (headObject fetch btoa config key log) = Return None)
     /\ (ok response = true ->
         snd (headObject fetch btoa config key log)
         = Return
             (Some {| Head.contentLength :=
                        parseInt10
                          (orElse (headersGet response (js "content-length"))
                                  (js "0"));
                      Head.contentType :=
                        orElse (headersGet response (js "content-type"))
                               (js "application/octet-stream");
                      Head.lastModified :=
                        orElse (headersGet response (js "last-modified"))
                               [] |}))
     /\ (status response <> 404 -> ok response = false ->
         snd (headObject fetch btoa config key log)
         = Throw (ErrorValue (js "WebDAV headObject failed: "
                              ++ js "WebDAV HeadObject failed: "
                              ++ numToString (status response)))))
  /\ (forall result,
        snd (headObject fetch btoa config key log) = Return result ->
        exists encoded response,
          btoa (credentialsOf config) = Return encoded
          /\ fetch (request encoded) = Return response
          /\ ((status response = 404 /\ result = None)
              \/ (ok response = true /\ result <> None))).
Proof.
  cbv zeta. rewrite headObject_run.
  cbv beta zeta delta [jsstring codeunit]. split.
  - intros encoded response -> ->. cbn [snd]. unfold ok.
    split; [|split].
    + intros ->. reflexivity.
    + intros Hok. rewrite Hok.
      destruct (N.eqb_spec (status response) 404) as [E|E]; [|reflexivity].
      rewrite E in Hok. discriminate.
    + intros Hn ->.
      destruct (N.eqb_spec (status response) 404); [contradiction|reflexivity].
  - intros result.
    destruct (btoa (credentialsOf config)) as [encoded|e]; [|discriminate].
    cbv zeta.
    destruct (fetch _) as [response|e] eqn:Ef; [|discriminate].
    cbn [snd]. unfold ok.
    destruct (N.eqb_spec (status response) 404) as [E|E].
    + intros [= <-]. exists encoded, response. auto.
    + destruct (inRange 200 299 (status response)) eqn:Er; [|discriminate].
      intros [= <-]. exists encoded, response.
      split; [reflexivity|]. split; [exact Ef|]. right. split; [exact Er|].
      discriminate.
Qed.

(** C10: [deleteObject] succeeds exactly on a status in the ok range or
    204, [createFolder] exactly on the ok range or 201, and [copyObject]
    exactly on the ok range, 201 or 204; on any other status each throws
    the failure that names the operation, the status and the body, and a
    failure of the transport is thrown again as the failure that names the
    operation; no other value is ever thrown. *)
Theorem operations_status_policy
    (key folderPath sourceKey destKey : jsstring) :
  StatusPolicy fetch btoa config
    (fun auth => {| url := resourceUrl config key; method := js "DELETE";
                    headers := [(js "Authorization", auth)];
                    body := None |})
    (fun code => inRange 200 299 code || (code =? 204))
    (js "WebDAV deleteObject failed: ") (js "WebDAV DeleteObject failed: ")
    (deleteObject fetch btoa config key)
  /\ StatusPolicy fetch btoa config
       (fun auth => {| url := resourceUrl config
                                (if endsWith folderPath slash then folderPath
                                 else folderPath ++ [slash]);
                       method := js "MKCOL";
                       headers := [(js "Authorization", auth)];
                       body := None |})
       (fun code => inRange 200 299 code || (code =? 201))
       (js "WebDAV createFolder failed: ") (js "WebDAV MKCOL failed: ")
       (createFolder fetch btoa config folderPath)
  /\ StatusPolicy fetch btoa config
       (fun auth => {| url := resourceUrl config destKey;
                       method := js "COPY";
                       headers := [(js "Authorization", auth);
                                   (js "Destination",
                                    resourceUrl config destKey);
                                   (js "Overwrite", js "F")];
                       body := None |})
       (fun code => inRange 200 299 code || (code =? 201) || (code =? 204))
       (js "WebDAV copyObject failed: ") (js "WebDAV COPY failed: ")
       (copyObject fetch btoa config sourceKey destKey).
Proof.
  split; [|split]; apply statusRun_policy; intros log.
  - apply deleteObject_run.
  - apply createFolder_run.
  - apply copyObject_run.
Qed.
End StatusFacts.

Lemma headObject_status_witness :
  snd (headObject (Host.answering 404 (js "Not Found")) Host.btoa
         Host.exampleConfig (js "missing.txt") [])
  = Return None
  /\ snd (headObject (Host.answering 500 []) Host.btoa
            Host.exampleConfig (js "missing.txt") [])
     = Throw (ErrorValue
                (js "WebDAV headObject failed: WebDAV HeadObject failed: 500")).
Proof.
  split.
  - pose proof (headObject_status (Host.answering 404 (js "Not Found"))
                  Host.btoa Host.exampleConfig (js "missing.txt") []) as H.
    cbv zeta in H. destruct H as [H _].
    destruct (H (js "dXNlcjpzZWNyZXQ=")
                {| status := 404; text := Return (js "Not Found");
                   headersGet := fun _ => None |}) as (H404 & _).
    + reflexivity.
    + reflexivity.
    + apply H404. reflexivity.
  - pose proof (headObject_status (Host.answering 500 [])
                  Host.btoa Host.exampleConfig (js "missing.txt") []) as H.
    cbv zeta in H. destruct H as [H _].
    destruct (H (js "dXNlcjpzZWNyZXQ=")
                {| status := 500; text := Return [];
                   headersGet := fun _ => None |}) as (_ & _ & H500).
    + reflexivity.
    + reflexivity.
    + etransitivity; [apply H500; [discriminate | reflexivity] | reflexivity].
Defined.

Lemma operations_status_policy_witness :
  snd (deleteObject (Host.answering 204 []) Host.btoa
         Host.exampleConfig (js "a.txt") [])
  = Return tt
  /\ snd (deleteObject (Host.answering 404 (js "Not Found")) Host.btoa
            Host.exampleConfig (js "a.txt") [])
     = Throw (ErrorValue
                (js "WebDAV deleteObject failed: "
                 ++ js "WebDAV DeleteObject failed: 404 Not Found"))
  /\ snd (createFolder (Host.answering 201 []) Host.btoa
            Host.exampleConfig (js "photos") [])
     = Return tt
  /\ snd (copyObject Host.unreachable Host.btoa
            Host.exampleConfig (js "a.txt") (js "b.txt") [])
     = Throw (ErrorValue (js "WebDAV copyObject failed: fetch failed")).
Proof.
  split; [|split; [|split]].
  - destruct (operations_status_policy (Host.answering 204 []) Host.btoa
                Host.exampleConfig (js "a.txt") (js "photos")
                (js "a.txt") (js "b.txt")) as (Hdelete & _ & _).
    destruct (Hdelete []) as (Hsuccess & _).
    apply Hsuccess.
    exists (js "dXNlcjpzZWNyZXQ="),
      {| status := 204; text := Return [];
         headersGet := fun _ => None |}.
    repeat split.
  - destruct (operations_status_policy
                (Host.answering 404 (js "Not Found")) Host.btoa
                Host.exampleConfig (js "a.txt") (js "photos")
                (js "a.txt") (js "b.txt")) as (Hdelete & _ & _).
    destruct (Hdelete []) as (_ & Hstatus & _).
    etransitivity;
      [apply (Hstatus (js "dXNlcjpzZWNyZXQ=")
                {| status := 404; text := Return (js "Not Found");
                   headersGet := fun _ => None |} (js "Not Found"));
       reflexivity
      | reflexivity].
  - destruct (operations_status_policy (Host.answering 201 []) Host.btoa
                Host.exampleConfig (js "a.txt") (js "photos")
                (js "a.txt") (js "b.txt")) as (_ & Hfolder & _).
    destruct (Hfolder []) as (Hsuccess & _).
    apply Hsuccess.
    exists (js "dXNlcjpzZWNyZXQ="),
      {| status := 201; text := Return [];
         headersGet := fun _ => None |}.
    repeat split.
  - destruct (operations_status_policy Host.unreachable Host.btoa
                Host.exampleConfig (js "a.txt") (js "photos")
                (js "a.txt") (js "b.txt")) as (_ & _ & Hcopy).
    destruct (Hcopy []) as (_ & _ & Htransport & _).
    etransitivity;
      [apply (Htransport (js "dXNlcjpzZWNyZXQ=")
                (ErrorValue (js "fetch failed")));
       reflexivity
      | reflexivity].
Defined.

(** The request [copyObject] sends for the keys [a.txt] and [b.txt]: the
    source key appears nowhere in it. *)
Example copyObject_a_to_b :
  fst (copyObject (Host.answering 201 []) Host.btoa Host.exampleConfig
         (js "a.txt") (js "b.txt") [])
  = [ {| url := js "https://dav.example.com/files/b.txt";
         method := js "COPY";
         headers := [(js "Authorization", js "Basic dXNlcjpzZWNyZXQ=");
                     (js "Destination",
                      js "https://dav.example.com/files/b.txt");
                     (js "Overwrite", js "F")];
         body := None |} ].
Proof. reflexivity. Qed.

(** The scenario of the specification: listing [docs/]. *)
Example listObjects_docs :
  match snd (listObjects (Host.answering 207 Sample.docsBody) Host.btoa
               Host.decodeURIComponent Host.localeCompare Host.exampleConfig
               (js "docs/") []) with
  | Throw _ => False
  | Return listing =>
      map (fun o => (key o, isDirectory o, size o)) (objects listing)
      = [(js "img", true, Num 0); (js "readme.txt", false, Num 120)]
      /\ prefixes listing = [js "img"]
      /\ isTruncated listing = false
  end.
Proof. vm_compute. repeat split. Qed.

(** * Further properties *)

(** ** Spellings of the configuration and of keys *)

Lemma stripTrailingSlash_unchanged (b : jsstring) :
  endsWith b slash = false -> stripTrailingSlash b = b.
Proof.
  induction b as [|c r IH]; [reflexivity|].
  destruct r as [|d r'].
  - cbn. intros ->. reflexivity.
  - intros H. change (stripTrailingSlash (c :: d :: r'))
      with (c :: stripTrailingSlash (d :: r')).
    f_equal. apply IH. exact H.
Qed.

Lemma stripTrailingSlash_added (b : jsstring) :
  stripTrailingSlash (b ++ [slash]) = b.
Proof.
  induction b as [|c r IH]; [reflexivity|].
  change ((c :: r) ++ [slash]) with (c :: (r ++ [slash])).
  destruct (r ++ [slash]) as [|d t] eqn:E.
  - destruct r; discriminate.
  - change (stripTrailingSlash (c :: d :: t))
      with (c :: stripTrailingSlash (d :: t)).
    now rewrite IH.
Qed.

Lemma stripLeadingSlash_unchanged (b : jsstring) :
  hasLeadingSlash b = false -> stripLeadingSlash b = b.
Proof. apply stripLeadingSlash_fixed. Qed.

Lemma hasLeadingSlash_app_slash (b : jsstring) :
  hasLeadingSlash b = false -> b <> [] ->
  hasLeadingSlash (b ++ [slash]) = false.
Proof. destruct b; [congruence | auto]. Qed.

Lemma trimSlashes_spellings (b : jsstring) :
  hasLeadingSlash b = false -> endsWith b slash = false ->
  trimSlashes b = b
  /\ trimSlashes (slash :: b) = b
  /\ trimSlashes (b ++ [slash]) = b
  /\ trimSlashes (slash :: b ++ [slash]) = b.
Proof.
  intros Hl He. unfold trimSlashes.
  change (stripLeadingSlash (slash :: b)) with b.
  change (stripLeadingSlash (slash :: b ++ [slash])) with (b ++ [slash]).
  rewrite (stripLeadingSlash_unchanged b Hl), stripTrailingSlash_added,
    (stripTrailingSlash_unchanged b He).
  repeat split.
  destruct b as [|c r]; [reflexivity|].
  rewrite stripLeadingSlash_unchanged by exact Hl.
  apply stripTrailingSlash_added.
Qed.

(** X1: a base path may be written with or without its leading and its
    trailing separator: the four spellings of a base path that neither
    begins nor ends with a separator resolve every key alike, and so do an
    absent base path, the empty one and the lone separator, for which the
    resolved path is the key without its leading separator. *)
Theorem basePath_spellings
    (e u p : jsstring) (b key : jsstring) :
  hasLeadingSlash b = false -> endsWith b slash = false ->
  let resolve base :=
    getFullPath {| endpoint := e; username := u; password := p;
                   basePath := base |} key in
  resolve (Some (slash :: b)) = resolve (Some b)
  /\ resolve (Some (b ++ [slash])) = resolve (Some b)
  /\ resolve (Some (slash :: b ++ [slash])) = resolve (Some b)
  /\ resolve None = stripLeadingSlash key
  /\ resolve (Some []) = stripLeadingSlash key
  /\ resolve (Some [slash]) = stripLeadingSlash key.
Proof.
  intros Hl He. cbv zeta.
  destruct (trimSlashes_spellings b Hl He) as (E0 & E1 & E2 & E3).
  unfold getFullPath, normalizedBasePath. cbn [basePath].
  rewrite E0, E1, E2, E3. repeat split.
Qed.

Lemma basePath_spellings_witness :
  let resolve base :=
    getFullPath {| endpoint := js "https://dav.example.com";
                   username := js "user"; password := js "secret";
                   basePath := base |} (js "docs/readme.txt") in
  resolve (Some (js "/files/team/")) = js "files/team/docs/readme.txt"
  /\ resolve (Some (js "/files/team/")) = resolve (Some (js "files/team")).
Proof.
  split; [reflexivity|].
  apply (basePath_spellings (js "https://dav.example.com") (js "user")
           (js "secret") (js "files/team") (js "docs/readme.txt"));
    reflexivity.
Defined.

(** X2: a key may be written with one leading separator, and the endpoint
    with one trailing separator: the address of the resource is the
    same. *)
Theorem resourceUrl_spellings
    (e u p : jsstring) (base : option jsstring) (key : jsstring) :
  hasLeadingSlash key = false -> endsWith e slash = false ->
  let address endpoint k :=
    resourceUrl {| endpoint := endpoint; username := u; password := p;
                   basePath := base |} k in
  address e (slash :: key) = address e key
  /\ address (e ++ [slash]) key = address e key
  /\ address (e ++ [slash]) (slash :: key) = address e key.
Proof.
  intros Hk He. cbv zeta.
  unfold resourceUrl, normalizeEndpoint, getFullPath. cbn [endpoint].
  change (stripLeadingSlash (slash :: key)) with key.
  rewrite (stripLeadingSlash_unchanged key Hk), stripTrailingSlash_added,
    (stripTrailingSlash_unchanged e He).
  repeat split.
Qed.

Lemma resourceUrl_spellings_witness :
  resourceUrl Host.exampleConfig (js "/docs/readme.txt")
  = js "https://dav.example.com/files/docs/readme.txt"
  /\ resourceUrl Host.exampleConfig (js "/docs/readme.txt")
     = resourceUrl {| endpoint := js "https://dav.example.com";
                      username := js "user"; password := js "secret";
                      basePath := Some (js "/files/") |}
         (js "docs/readme.txt").
Proof.
  split; [reflexivity|].
  apply (resourceUrl_spellings (js "https://dav.example.com") (js "user")
           (js "secret") (Some (js "/files/")) (js "docs/readme.txt"));
    reflexivity.
Defined.

(** ** The runs of the other operations *)

Section OperationRuns.
Variable fetch : Request -> Outcome Response.
Variable btoa : jsstring -> Outcome jsstring.
Variable decodeURIComponent : jsstring -> Outcome jsstring.
Variable localeCompare : jsstring -> jsstring -> Z.
Variable encode : jsstring -> list N.
Variable config : WebdevConfig.

Lemma getObject_run (key : jsstring) (log : list Request) :
  getObject fetch btoa config key log
  = match btoa (credentialsOf config) with
    | Throw e =>
        (log, Throw (ErrorValue (js "WebDAV getObject failed: "
                                 ++ errorMessage e)))
    | Return encoded =>
        let request :=
          {| url := resourceUrl config key; method := js "GET";
             headers := [(js "Authorization", js "Basic " ++ encoded)];
             body := None |} in
        match fetch request with
        | Throw e =>
            (log ++ [request],
             Throw (ErrorValue (js "WebDAV getObject failed: "
                                ++ errorMessage e)))
        | Return response =>
            (log ++ [request],
             if inRange 200 299 (status response) then Return response
             else
               Throw (ErrorValue (js "WebDAV getObject failed: "
                                  ++ js "WebDAV GetObject failed: "
                                  ++ numToString (status response))))
        end
    end.
Proof. unfold getObject. run_method fetch btoa. Qed.

Lemma putObject_run (key : jsstring) (body : PutBody)
    (contentType : option jsstring) (log : list Request) :
  putObject fetch btoa encode config key body contentType log
  = statusRun fetch btoa config
      (fun auth =>
         {| url := resourceUrl config key; method := js "PUT";
            headers := [(js "Authorization", auth);
                        (js "Content-Type",
                         orElse contentType (js "application/octet-stream"))];
            body := Some match body with
                         | TextBody content => encode content
                         | BufferBody octets => octets
                         end |})
      (fun code => inRange 200 299 code)
      (js "WebDAV putObject failed: ") (js "WebDAV PutObject failed: ")
      log.
Proof. unfold putObject. run_method fetch btoa. Qed.

Lemma listObjects_run (prefix : jsstring) (log : list Request) :
  listObjects fetch btoa decodeURIComponent localeCompare config prefix log
  = match btoa (credentialsOf config) with
    | Throw e =>
        (log, Throw (ErrorValue (js "WebDAV listObjects failed: "
                                 ++ errorMessage e)))
    | Return encoded =>
        let request := listRequest config prefix (js "Basic " ++ encoded) in
        (log ++ [request],
         match fetch request with
         | Throw e =>
             Throw (ErrorValue (js "WebDAV listObjects failed: "
                                ++ errorMessage e))
         | Return response =>
             if inRange 200 299 (status response)
                || (status response =? 207)
             then
               match text response with
               | Throw e =>
                   Throw (ErrorValue (js "WebDAV listObjects failed: "
                                      ++ errorMessage e))
               | Return xml =>
                   match parsePropfindResponse decodeURIComponent
                           localeCompare xml
                           (getFullPath config (listPrefix prefix))
                           (listPrefix prefix) with
                   | Return listing => Return listing
                   | Throw e =>
                       Throw (ErrorValue (js "WebDAV listObjects failed: "
                                          ++ errorMessage e))
                   end
               end
             else
               Throw (ErrorValue (js "WebDAV listObjects failed: "
                                  ++ js "WebDAV PROPFIND failed: "
                                  ++ numToString (status response)))
         end)
    end.
Proof.
  unfold listObjects, listRequest, listPrefix, getBasicAuth, tryCatch, bind,
    send, await, ret, throw, credentialsOf, ok.
  cbv beta iota zeta delta [jsstring codeunit].
  destruct (btoa _) as [encoded|e]; cbv beta iota zeta; [|reflexivity].
  destruct (fetch _) as [response|e]; cbv beta iota zeta; [|reflexivity].
  destruct (inRange 200 299 (status response)), (status response =? 207);
    cbn [negb andb orb]; cbv beta iota zeta; try reflexivity;
    destruct (text response) as [xml|e]; cbv beta iota zeta;
    try reflexivity;
    destruct (parsePropfindResponse _ _ _ _ _); reflexivity.
Qed.

End OperationRuns.

(** ** Status mapping of the other operations *)

Lemma statusRun_log (fetch : Request -> Outcome Response)
    (btoa : jsstring -> Outcome jsstring) (config : WebdevConfig)
    (request : jsstring -> Request) (accepted : N -> bool)
    (operation failure : jsstring) (log : list Request) :
  fst (statusRun fetch btoa config request accepted operation failure log)
  = match btoa (credentialsOf config) with
    | Throw _ => log
    | Return encoded => log ++ [request (js "Basic " ++ encoded)]
    end.
Proof.
  unfold statusRun. destruct (btoa _) as [encoded|e]; [|reflexivity].
  cbv zeta. destruct (fetch _) as [response|e]; [|reflexivity].
  destruct (accepted _); [reflexivity|].
  destruct (text response); reflexivity.
Qed.

Section OperationFacts.
Variable fetch : Request -> Outcome Response.
Variable btoa : jsstring -> Outcome jsstring.
Variable decodeURIComponent : jsstring -> Outcome jsstring.
Variable localeCompare : jsstring -> jsstring -> Z.
Variable encode : jsstring -> list N.
Variable config : WebdevConfig.

(** X4: when the transport answers the GET request, [getObject] returns that
    very response if its status is in the ok range and otherwise throws
    the failure that names the operation and the status, without reading
    the body; a returned response is always the transport's, with an ok
    status. *)
Theorem getObject_status (key : jsstring) (log : list Request) :
  let request encoded :=
    {| url := resourceUrl config key; method := js "GET";
       headers := [(js "Authorization", js "Basic " ++ encoded)];
       body := None |} in
  (forall encoded response,
     btoa (credentialsOf config) = Return encoded ->
     fetch (request encoded) = Return response ->
     (ok response = true ->
      snd (getObject fetch btoa config key log) = Return response)
     /\ (ok response = false ->
         snd (getObject fetch btoa config key log)
         = Throw (ErrorValue (js "WebDAV getObject failed: "
                              ++ js "WebDAV GetObject failed: "
                              ++ numToString (status response)))))
  /\ (forall response,
        snd (getObject fetch btoa config key log) = Return response ->
        ok response = true
        /\ exists encoded,
             btoa (credentialsOf config) = Return encoded
             /\ fetch (request encoded) = Return response).
Proof.
  cbv zeta. rewrite getObject_run.
  cbv beta zeta delta [jsstring codeunit]. split.
  - intros encoded response -> ->. cbn [snd]. unfold ok.
    split; intros ->; reflexivity.
  - intros result.
    destruct (btoa (credentialsOf config)) as [encoded|e]; [|discriminate].
    destruct (fetch _) as [response|e] eqn:Ef; [|discriminate].
    cbn [snd]. unfold ok.
    destruct (inRange 200 299 (status response)) eqn:Er; [|discriminate].
    intros [= <-]. split; [exact Er|]. exists encoded. split; [reflexivity|].
    exact Ef.
Qed.

(** X5: [putObject] sends the octets of the buffer, or the encoding of the
    string, with the caller's content type or, when that is absent or
    empty, [application/octet-stream]; it succeeds exactly on a status in
    the ok range and otherwise throws the failure that names the
    operation, the status and the body. *)
Theorem putObject_status_policy (key : jsstring) (body : PutBody)
    (contentType : option jsstring) :
  StatusPolicy fetch btoa config
    (fun auth =>
       {| url := resourceUrl config key; method := js "PUT";
          headers := [(js "Authorization", auth);
                      (js "Content-Type",
                       match contentType with
                       | Some (c :: t) => c :: t
                       | _ => js "application/octet-stream"
                       end)];
          body := Some match body with
                       | TextBody content => encode content
                       | BufferBody octets => octets
                       end |})
    (fun code => inRange 200 299 code)
    (js "WebDAV putObject failed: ") (js "WebDAV PutObject failed: ")
    (putObject fetch btoa encode config key body contentType).
Proof.
  apply statusRun_policy. intros log. rewrite putObject_run.
  destruct contentType as [[|c t]|]; reflexivity.
Qed.

(** X6: when the transport answers the PROPFIND request, [listObjects] throws
    the failure that names the operation and the status if the status is
    neither in the ok range nor 207, whether or not the body can be read;
    otherwise it returns the parse of the body for the resolved prefix, or
    throws what the parse throws as the failure that names the
    operation. *)
Theorem listObjects_status (prefix : jsstring) (log : list Request) :
  forall encoded response,
    btoa (credentialsOf config) = Return encoded ->
    fetch (listRequest config prefix (js "Basic " ++ encoded))
    = Return response ->
    (ok response = false -> status response <> 207 ->
     snd (listObjects fetch btoa decodeURIComponent localeCompare config
            prefix log)
     = Throw (ErrorValue (js "WebDAV listObjects failed: "
                          ++ js "WebDAV PROPFIND failed: "
                          ++ numToString (status response))))
    /\ (ok response = true \/ status response = 207 ->
        forall xml, text response = Return xml ->
        snd (listObjects fetch btoa decodeURIComponent localeCompare config
               prefix log)
        = match parsePropfindResponse decodeURIComponent localeCompare xml
                  (getFullPath config (listPrefix prefix))
                  (listPrefix prefix) with
          | Return listing => Return listing
          | Throw e =>
              Throw (ErrorValue (js "WebDAV listObjects failed: "
                                 ++ errorMessage e))
          end).
Proof.
  intros encoded response Hb Hf. rewrite listObjects_run, Hb. cbv zeta.
  rewrite Hf. cbn [snd]. unfold ok. split.
  - intros -> Hs.
    destruct (N.eqb_spec (status response) 207); [contradiction|reflexivity].
  - intros Hs xml ->.
    destruct Hs as [-> | ->]; [reflexivity|].
    rewrite orb_true_r. reflexivity.
Qed.

(** X7: a non-empty prefix may be given with or without its trailing
    separator: [listObjects] runs alike. *)
Theorem listObjects_prefix_separator (prefix : jsstring) (log : list Request) :
  prefix <> [] -> endsWith prefix slash = false ->
  listObjects fetch btoa decodeURIComponent localeCompare config
    (prefix ++ [slash]) log
  = listObjects fetch btoa decodeURIComponent localeCompare config prefix log.
Proof.
  intros Hn He.
  assert (listPrefix (prefix ++ [slash]) = listPrefix prefix) as E.
  { unfold listPrefix. rewrite He.
    assert (endsWith (prefix ++ [slash]) slash = true) as ->.
    { clear. induction prefix as [|c r IH]; [reflexivity|].
      change ((c :: r) ++ [slash]) with (c :: (r ++ [slash])).
      destruct (r ++ [slash]) eqn:E; [destruct r; discriminate|].
      exact IH. }
    destruct prefix; [congruence|]. rewrite andb_false_r. reflexivity. }
  rewrite !listObjects_run. unfold listRequest. rewrite E. reflexivity.
Qed.
End OperationFacts.

Lemma getObject_status_witness :
  snd (getObject (Host.answering 200 (js "hello")) Host.btoa
         Host.exampleConfig (js "a.txt") [])
  = Return {| status := 200; text := Return (js "hello");
              headersGet := fun _ => None |}
  /\ snd (getObject (Host.answering 404 []) Host.btoa
            Host.exampleConfig (js "a.txt") [])
     = Throw (ErrorValue
                (js "WebDAV getObject failed: WebDAV GetObject failed: 404")).
Proof.
  split.
  - pose proof (getObject_status (Host.answering 200 (js "hello")) Host.btoa
                  Host.exampleConfig (js "a.txt") []) as H.
    cbv zeta in H. destruct H as [H _].
    destruct (H (js "dXNlcjpzZWNyZXQ=")
                {| status := 200; text := Return (js "hello");
                   headersGet := fun _ => None |}) as (Hok & _);
      [reflexivity | reflexivity |].
    apply Hok. reflexivity.
  - pose proof (getObject_status (Host.answering 404 []) Host.btoa
                  Host.exampleConfig (js "a.txt") []) as H.
    cbv zeta in H. destruct H as [H _].
    destruct (H (js "dXNlcjpzZWNyZXQ=")
                {| status := 404; text := Return [];
                   headersGet := fun _ => None |}) as (_ & Hbad);
      [reflexivity | reflexivity |].
    etransitivity; [apply Hbad; reflexivity | reflexivity].
Defined.

Lemma putObject_status_policy_witness :
  snd (putObject (Host.answering 201 []) Host.btoa HostText.encode
         Host.exampleConfig (js "a.txt") (TextBody (js "hello")) None [])
  = Return tt
  /\ snd (putObject (Host.answering 507 (js "Insufficient Storage")) Host.btoa
            HostText.encode Host.exampleConfig (js "a.txt")
            (TextBody (js "hello")) None [])
     = Throw (ErrorValue
                (js "WebDAV putObject failed: "
                 ++ js "WebDAV PutObject failed: 507 Insufficient Storage")).
Proof.
  split.
  - destruct (putObject_status_policy (Host.answering 201 []) Host.btoa
                HostText.encode Host.exampleConfig (js "a.txt")
                (TextBody (js "hello")) None []) as (Hsuccess & _).
    apply Hsuccess.
    exists (js "dXNlcjpzZWNyZXQ="),
      {| status := 201; text := Return [];
         headersGet := fun _ => None |}.
    repeat split.
  - destruct (putObject_status_policy
                (Host.answering 507 (js "Insufficient Storage")) Host.btoa
                HostText.encode Host.exampleConfig (js "a.txt")
                (TextBody (js "hello")) None []) as (_ & Hstatus & _).
    etransitivity;
      [apply (Hstatus (js "dXNlcjpzZWNyZXQ=")
                {| status := 507; text := Return (js "Insufficient Storage");
                   headersGet := fun _ => None |}
                (js "Insufficient Storage"));
       reflexivity
      | reflexivity].
Defined.

Lemma listObjects_status_witness :
  snd (listObjects (Host.answering 403 (js "Forbidden")) Host.btoa
         Host.decodeURIComponent Host.localeCompare Host.exampleConfig
         (js "docs") [])
  = Throw (ErrorValue
             (js "WebDAV listObjects failed: WebDAV PROPFIND failed: 403")).
Proof.
  destruct (listObjects_status (Host.answering 403 (js "Forbidden")) Host.btoa
              Host.decodeURIComponent Host.localeCompare Host.exampleConfig
              (js "docs") [] (js "dXNlcjpzZWNyZXQ=")
              {| status := 403; text := Return (js "Forbidden");
                 headersGet := fun _ => None |}) as (Hbad & _);
    [reflexivity | reflexivity |].
  etransitivity; [apply Hbad; [reflexivity | discriminate] | reflexivity].
Defined.

Lemma listObjects_prefix_separator_witness :
  listObjects (Host.answering 207 Sample.docsBody) Host.btoa
    Host.decodeURIComponent Host.localeCompare Host.exampleConfig
    (js "docs" ++ [slash]) []
  = listObjects (Host.answering 207 Sample.docsBody) Host.btoa
      Host.decodeURIComponent Host.localeCompare Host.exampleConfig
      (js "docs") [].
Proof.
  apply listObjects_prefix_separator; [discriminate | reflexivity].
Defined.

(** ** Folders *)

Lemma endsWith_added (s : jsstring) : endsWith (s ++ [slash]) slash = true.
Proof.
  induction s as [|c r IH]; [reflexivity|].
  change ((c :: r) ++ [slash]) with (c :: (r ++ [slash])).
  destruct (r ++ [slash]) eqn:E; [destruct r; discriminate | exact IH].
Qed.

Lemma endsWith_after (a b : jsstring) (c : codeunit) :
  b <> [] -> endsWith (a ++ b) c = endsWith b c.
Proof.
  intros Hb. induction a as [|x a IH]; [reflexivity|].
  change ((x :: a) ++ b) with (x :: (a ++ b)).
  destruct (a ++ b) eqn:E; [|exact IH].
  apply app_eq_nil in E. destruct E. contradiction.
Qed.

Lemma endsWith_stripLeadingSlash (s : jsstring) :
  endsWith s slash = true ->
  endsWith (slash :: stripLeadingSlash s) slash = true.
Proof.
  destruct s as [|c r]; [discriminate|]. cbn [stripLeadingSlash].
  destruct (c =? slash) eqn:E; [|auto].
  destruct r; [reflexivity | auto].
Qed.

(** The address of a resource whose key ends with a separator ends with
    a separator. *)
Lemma resourceUrl_endsWith (config : WebdevConfig) (path : jsstring) :
  endsWith path slash = true ->
  endsWith (resourceUrl config path) slash = true.
Proof.
  intros H. unfold resourceUrl, getFullPath.
  destruct (truthy (normalizedBasePath config)).
  - replace (normalizeEndpoint (endpoint config) ++ [slash]
             ++ normalizedBasePath config ++ [slash]
             ++ stripLeadingSlash path)
      with ((normalizeEndpoint (endpoint config) ++ [slash]
             ++ normalizedBasePath config)
            ++ slash :: stripLeadingSlash path)
      by (rewrite <- !app_assoc; reflexivity).
    rewrite endsWith_after by discriminate.
    now apply endsWith_stripLeadingSlash.
  - change (normalizeEndpoint (endpoint config) ++ [slash]
            ++ stripLeadingSlash path)
      with (normalizeEndpoint (endpoint config)
            ++ slash :: stripLeadingSlash path).
    rewrite endsWith_after by discriminate.
    now apply endsWith_stripLeadingSlash.
Qed.

Section FolderFacts.
Variable fetch : Request -> Outcome Response.
Variable btoa : jsstring -> Outcome jsstring.
Variable config : WebdevConfig.

(** X8: [createFolder] always addresses a collection: the one request it
    sends is a MKCOL without body whose address ends with a separator,
    whatever the folder path and the configuration; and a folder path may
    be given with or without its trailing separator. *)
Theorem createFolder_collection_address
    (folderPath : jsstring) (log : list Request) :
  (forall encoded, btoa (credentialsOf config) = Return encoded ->
     exists request,
       fst (createFolder fetch btoa config folderPath log) = log ++ [request]
       /\ method request = js "MKCOL"
       /\ body request = None
       /\ endsWith (url request) slash = true)
  /\ (endsWith folderPath slash = false ->
      createFolder fetch btoa config (folderPath ++ [slash]) log
      = createFolder fetch btoa config folderPath log).
Proof.
  split.
  - intros encoded Hb. rewrite createFolder_run, statusRun_log, Hb.
    eexists. split; [reflexivity|]. cbn [method body url].
    repeat split. apply resourceUrl_endsWith.
    destruct (endsWith folderPath slash) eqn:E; [exact E|].
    apply endsWith_added.
  - intros He. rewrite !createFolder_run, He, endsWith_added. reflexivity.
Qed.
End FolderFacts.

Lemma createFolder_collection_address_witness :
  fst (createFolder (Host.answering 201 []) Host.btoa Host.exampleConfig
         (js "photos") [])
  = [ {| url := js "https://dav.example.com/files/photos/";
         method := js "MKCOL";
         headers := [(js "Authorization", js "Basic dXNlcjpzZWNyZXQ=")];
         body := None |} ]
  /\ createFolder (Host.answering 201 []) Host.btoa Host.exampleConfig
       (js "photos" ++ [slash]) []
     = createFolder (Host.answering 201 []) Host.btoa Host.exampleConfig
         (js "photos") [].
Proof.
  destruct (createFolder_collection_address (Host.answering 201 []) Host.btoa
              Host.exampleConfig (js "photos") []) as [Hsend Hsame].
  split.
  - destruct (Hsend (js "dXNlcjpzZWNyZXQ=") eq_refl) as (request & _).
    reflexivity.
  - apply Hsame. reflexivity.
Defined.

(** ** Credentials, addresses and failures *)

(** Reads the message off a thrown failure. *)
Ltac named_failure :=
  let H := fresh in
  intros H;
  match type of H with
  | Throw (ErrorValue (_ ++ ?m)) = Throw _ => exists m; congruence
  end.

Section RequestFacts.
Variable fetch : Request -> Outcome Response.
Variable btoa : jsstring -> Outcome jsstring.
Variable decodeURIComponent : jsstring -> Outcome jsstring.
Variable localeCompare : jsstring -> jsstring -> Z.
Variable encode : jsstring -> list N.
Variable config : WebdevConfig.

(** X9: when the credentials cannot be encoded, every operation fails with
    the failure that names it and carries the message of [btoa], and sends
    no request. *)
Theorem unencodable_credentials_send_nothing
    (key other : jsstring) (body : PutBody) (contentType : option jsstring)
    (log : list Request) (e : Thrown) :
  btoa (credentialsOf config) = Throw e ->
  listObjects fetch btoa decodeURIComponent localeCompare config key log
  = (log, Throw (ErrorValue (js "WebDAV listObjects failed: "
                             ++ errorMessage e)))
  /\ getObject fetch btoa config key log
     = (log, Throw (ErrorValue (js "WebDAV getObject failed: "
                                ++ errorMessage e)))
  /\ putObject fetch btoa encode config key body contentType log
     = (log, Throw (ErrorValue (js "WebDAV putObject failed: "
                                ++ errorMessage e)))
  /\ deleteObject fetch btoa config key log
     = (log, Throw (ErrorValue (js "WebDAV deleteObject failed: "
                                ++ errorMessage e)))
  /\ createFolder fetch btoa config key log
     = (log, Throw (ErrorValue (js "WebDAV createFolder failed: "
                                ++ errorMessage e)))
  /\ copyObject fetch btoa config key other log
     = (log, Throw (ErrorValue (js "WebDAV copyObject failed: "
                                ++ errorMessage e)))
  /\ headObject fetch btoa config key log
     = (log, Throw (ErrorValue (js "WebDAV headObject failed: "
                                ++ errorMessage e))).
Proof.
  intros Hb.
  rewrite listObjects_run, getObject_run, putObject_run, deleteObject_run,
    createFolder_run, copyObject_run, headObject_run.
  unfold statusRun. rewrite Hb. repeat split.
Qed.

(** X11: [getSignedUrl] and [getSignedUploadPartUrl] send nothing and return,
    whatever the expiry, the upload and the part, the plain address of the
    key: the address at which [getObject], [headObject], [putObject] and
    [deleteObject] send their request for that key. *)
Theorem getSignedUrl_is_the_request_address
    (key uploadId : jsstring) (partNumber expiresIn : N)
    (body : PutBody) (contentType : option jsstring) (log : list Request) :
  getSignedUrl config key expiresIn log
  = (log, Return (resourceUrl config key))
  /\ getSignedUploadPartUrl config key uploadId partNumber expiresIn log
     = (log, Return (resourceUrl config key))
  /\ forall encoded, btoa (credentialsOf config) = Return encoded ->
       exists got headed put deleted,
         fst (getObject fetch btoa config key log) = log ++ [got]
         /\ fst (headObject fetch btoa config key log) = log ++ [headed]
         /\ fst (putObject fetch btoa encode config key body contentType log)
            = log ++ [put]
         /\ fst (deleteObject fetch btoa config key log) = log ++ [deleted]
         /\ url got = resourceUrl config key
         /\ url headed = resourceUrl config key
         /\ url put = resourceUrl config key
         /\ url deleted = resourceUrl config key.
Proof.
  split; [reflexivity|]. split; [reflexivity|].
  intros encoded Hb.
  rewrite getObject_run, headObject_run, putObject_run, deleteObject_run,
    !statusRun_log, Hb.
  cbv zeta. do 4 eexists.
  split; [destruct (fetch _); reflexivity|].
  split; [destruct (fetch _); reflexivity|].
  repeat split.
Qed.

(** X12: whatever [listObjects], [getObject] or [headObject] throws is an
    error whose message begins with the name of the operation. *)
Theorem failures_name_the_operation
    (key : jsstring) (log : list Request) (e : Thrown) :
  (snd (listObjects fetch btoa decodeURIComponent localeCompare config
          key log) = Throw e ->
   exists m, e = ErrorValue (js "WebDAV listObjects failed: " ++ m))
  /\ (snd (getObject fetch btoa config key log) = Throw e ->
      exists m, e = ErrorValue (js "WebDAV getObject failed: " ++ m))
  /\ (snd (headObject fetch btoa config key log) = Throw e ->
      exists m, e = ErrorValue (js "WebDAV headObject failed: " ++ m)).
Proof.
  rewrite listObjects_run, getObject_run, headObject_run.
  destruct (btoa (credentialsOf config)) as [encoded|eb]; cbv zeta.
  2:{ cbn [snd]. repeat split; named_failure. }
  split; [|split].
  - cbn [snd]. destruct (fetch _) as [response|ef]; [|named_failure].
    destruct (_ || _); [|named_failure].
    destruct (text response) as [xml|et]; [|named_failure].
    destruct (parsePropfindResponse _ _ _ _ _); [discriminate|].
    named_failure.
  - destruct (fetch _) as [response|ef]; cbn [snd]; [|named_failure].
    destruct (inRange _ _ _); [discriminate | named_failure].
  - destruct (fetch _) as [response|ef]; cbn [snd]; [|named_failure].
    destruct (_ =? _); [discriminate|].
    destruct (inRange _ _ _); [discriminate | named_failure].
Qed.

(** X13: the metadata [headObject] returns never has an empty content type,
    and for an ok response in which each of the headers [content-length],
    [content-type] and [last-modified] is missing or empty, whatever other
    headers it carries, it is the length 0, the type
    [application/octet-stream] and the empty date. *)
Theorem headObject_metadata (key : jsstring) (log : list Request) :
  (forall meta,
     snd (headObject fetch btoa config key log) = Return (Some meta) ->
     Head.contentType meta <> [])
  /\ (forall encoded response,
        btoa (credentialsOf config) = Return encoded ->
        fetch {| url := resourceUrl config key; method := js "HEAD";
                 headers := [(js "Authorization", js "Basic " ++ encoded)];
                 body := None |} = Return response ->
        ok response = true ->
        (headersGet response (js "content-length") = None
         \/ headersGet response (js "content-length") = Some []) ->
        (headersGet response (js "content-type") = None
         \/ headersGet response (js "content-type") = Some []) ->
        (headersGet response (js "last-modified") = None
         \/ headersGet response (js "last-modified") = Some []) ->
        snd (headObject fetch btoa config key log)
        = Return (Some {| Head.contentLength := Num 0;
                          Head.contentType := js "application/octet-stream";
                          Head.lastModified := [] |})).
Proof.
  rewrite headObject_run. cbv beta zeta delta [jsstring codeunit]. split.
  - intros meta.
    destruct (btoa (credentialsOf config)) as [encoded|e]; [|discriminate].
    destruct (fetch _) as [response|e]; [|discriminate].
    cbn [snd]. destruct (_ =? _); [discriminate|].
    destruct (inRange _ _ _); [|discriminate].
    intros [= <-]. cbn [Head.contentType]. unfold orElse.
    destruct (headersGet response (js "content-type")) as [[|c t]|];
      discriminate.
  - intros encoded response -> -> Hok Hlength Htype Hdate. cbn [snd].
    unfold ok in Hok.
    destruct (N.eqb_spec (status response) 404) as [E|_].
    { rewrite E in Hok. discriminate. }
    rewrite Hok. unfold orElse.
    destruct Hlength as [-> | ->], Htype as [-> | ->], Hdate as [-> | ->];
      reflexivity.
Qed.
End RequestFacts.

Lemma unencodable_credentials_send_nothing_witness :
  let config := {| endpoint := js "https://dav.example.com";
                   username := js "user";
                   password := js "pass" ++ [8364];
                   basePath := None |} in
  deleteObject (Host.answering 204 []) Host.btoa config (js "a.txt") []
  = ([], Throw (ErrorValue
                  (js "WebDAV deleteObject failed: Invalid character")))
  /\ headObject (Host.answering 200 []) Host.btoa config (js "a.txt") []
     = ([], Throw (ErrorValue
                     (js "WebDAV headObject failed: Invalid character"))).
Proof.
  cbv zeta.
  destruct (unencodable_credentials_send_nothing
              (Host.answering 204 []) Host.btoa Host.decodeURIComponent
              Host.localeCompare HostText.encode
              {| endpoint := js "https://dav.example.com";
                 username := js "user";
                 password := js "pass" ++ [8364];
                 basePath := None |}
              (js "a.txt") (js "b.txt") (BufferBody []) None []
              (ErrorValue (js "Invalid character")) eq_refl)
    as (_ & _ & _ & Hdelete & _).
  destruct (unencodable_credentials_send_nothing
              (Host.answering 200 []) Host.btoa Host.decodeURIComponent
              Host.localeCompare HostText.encode
              {| endpoint := js "https://dav.example.com";
                 username := js "user";
                 password := js "pass" ++ [8364];
                 basePath := None |}
              (js "a.txt") (js "b.txt") (BufferBody []) None []
              (ErrorValue (js "Invalid character")) eq_refl)
    as (_ & _ & _ & _ & _ & _ & Hhead).
  split.
  - etransitivity; [exact Hdelete | reflexivity].
  - etransitivity; [exact Hhead | reflexivity].
Defined.

Lemma getSignedUrl_is_the_request_address_witness :
  snd (getSignedUrl Host.exampleConfig (js "a.txt") 3600 [])
  = Return (js "https://dav.example.com/files/a.txt")
  /\ exists got,
       fst (getObject (Host.answering 200 []) Host.btoa Host.exampleConfig
              (js "a.txt") []) = [got]
       /\ url got = js "https://dav.example.com/files/a.txt".
Proof.
  destruct (getSignedUrl_is_the_request_address
              (Host.answering 200 []) Host.btoa HostText.encode
              Host.exampleConfig (js "a.txt") (js "upload") 1 3600
              (BufferBody []) None []) as (Hsigned & _ & Hsent).
  split.
  - rewrite Hsigned. reflexivity.
  - destruct (Hsent (js "dXNlcjpzZWNyZXQ=") eq_refl)
      as (got & _ & _ & _ & Hgot & _ & _ & _ & Hurl & _).
    exists got. split; [exact Hgot | exact Hurl].
Defined.

Lemma failures_name_the_operation_witness :
  exists m,
    snd (getObject Host.unreachable Host.btoa Host.exampleConfig
           (js "a.txt") [])
    = Throw (ErrorValue (js "WebDAV getObject failed: " ++ m)).
Proof.
  destruct (failures_name_the_operation
              Host.unreachable Host.btoa Host.decodeURIComponent
              Host.localeCompare Host.exampleConfig (js "a.txt") []
              (ErrorValue (js "WebDAV getObject failed: fetch failed")))
    as (_ & Hget & _).
  destruct (Hget eq_refl) as [m Hm].
  exists (js "fetch failed"). reflexivity.
Defined.

Lemma headObject_metadata_witness :
  let response :=
    {| status := 200; text := Return [];
       headersGet := fun header =>
         if jsEqb header (js "date")
         then Some (js "Mon, 01 Jan 2024 00:00:00 GMT")
         else if jsEqb header (js "content-type") then Some []
         else None |} in
  snd (headObject (fun _ => Return response) Host.btoa Host.exampleConfig
         (js "a.txt") [])
  = Return (Some {| Head.contentLength := Num 0;
                    Head.contentType := js "application/octet-stream";
                    Head.lastModified := [] |}).
Proof.
  intros response.
  destruct (headObject_metadata (fun _ => Return response) Host.btoa
              Host.exampleConfig (js "a.txt") []) as [_ Hdefault].
  apply (Hdefault (js "dXNlcjpzZWNyZXQ=") response).
  - reflexivity.
  - reflexivity.
  - reflexivity.
  - left. reflexivity.
  - right. reflexivity.
  - left. reflexivity.
Defined.

(** ** Decimal numerals and the multipart shim *)

Lemma js_injective (a b : string) : js a = js b -> a = b.
Proof.
  unfold js. intros H.
  apply (f_equal (map ascii_of_N)) in H. rewrite !map_map in H.
  rewrite !(map_ext _ (fun x => x) ascii_N_embedding), !map_id in H.
  apply (f_equal string_of_list_ascii) in H.
  now rewrite !string_of_list_ascii_of_string in H.
Qed.

(** Different numbers print differently. *)
Lemma numToString_injective (a b : N) :
  numToString a = numToString b -> a = b.
Proof.
  unfold numToString. intros H. apply js_injective in H.
  apply (f_equal NilZero.uint_of_string) in H.
  rewrite !NilZero.usu in H by apply to_uint_nonnil.
  injection H as H. now apply DecimalN.Unsigned.to_uint_inj.
Qed.

(** X14: [uploadPart] and [initiateMultipartUpload] send nothing.  The tag
    [uploadPart] returns identifies the part number and nothing else: two
    calls return the same tag exactly when their part numbers are equal,
    whatever the keys, uploads and bodies.  The identifier
    [initiateMultipartUpload] returns identifies the clock reading and
    nothing else: two uploads started at the same reading share it. *)
Theorem multipart_shim
    (key key' uploadId uploadId' contentType contentType' : jsstring)
    (partNumber partNumber' now now' : N) (body body' : list N)
    (contentLength contentLength' : option N) (log log' : list Request) :
  (snd (uploadPart key uploadId partNumber body contentLength log)
   = snd (uploadPart key' uploadId' partNumber' body' contentLength' log')
   <-> partNumber = partNumber')
  /\ (snd (initiateMultipartUpload now key contentType log)
      = snd (initiateMultipartUpload now' key' contentType' log')
      <-> now = now')
  /\ fst (uploadPart key uploadId partNumber body contentLength log) = log
  /\ fst (initiateMultipartUpload now key contentType log) = log.
Proof.
  unfold uploadPart, initiateMultipartUpload, ret. cbn [fst snd].
  repeat split.
  - intros [= H]. now apply numToString_injective.
  - intros ->. reflexivity.
  - intros [= H]. now apply numToString_injective.
  - intros ->. reflexivity.
Qed.

Lemma multipart_shim_witness :
  snd (uploadPart (js "a.bin") (js "webdev-1") 2 [1; 2; 3] (Some 3) [])
  = Return (js "2")
  /\ snd (uploadPart (js "a.bin") (js "webdev-1") 2 [1; 2; 3] (Some 3) [])
     = snd (uploadPart (js "b.bin") (js "webdev-9") 2 [] None []).
Proof.
  split; [reflexivity|].
  apply (multipart_shim (js "a.bin") (js "b.bin") (js "webdev-1")
           (js "webdev-9") [] [] 2 2 0 0 [1; 2; 3] [] (Some 3) None [] []).
  reflexivity.
Defined.

(** ** More about the listing parse *)

Lemma splitAt_None_suffix (pat a b : jsstring) :
  splitAt pat (a ++ b) = None -> splitAt pat b = None.
Proof.
  induction a as [|c a IH]; [auto|].
  cbn [app splitAt].
  destruct (isPrefixOf pat (c :: a ++ b)); [discriminate|].
  destruct (splitAt pat (a ++ b)) as [[x y]|]; [discriminate | auto].
Qed.

Lemma responseBlocks_none (xml : jsstring) :
  includes xml (js "<D:response>") = false
  \/ includes xml (js "</D:response>") = false ->
  responseBlocks xml = [].
Proof.
  intros H. rewrite responseBlocks_step. unfold execAny, includes in *.
  destruct (splitAt (js "<D:response>") xml) as [[before after]|] eqn:Eo;
    [|reflexivity].
  destruct H as [H|H]; [discriminate|].
  apply splitAt_Some in Eo.
  destruct (splitAt (js "</D:response>") xml) eqn:Ec; [discriminate|].
  rewrite Eo, app_assoc in Ec. apply splitAt_None_suffix in Ec.
  now rewrite Ec.
Qed.

Lemma replaceAll_absent (c : codeunit) (pat rep s : jsstring) :
  ~ In c s -> replaceAll (c :: pat) rep s = s.
Proof.
  unfold replaceAll. induction s as [|x r IH]; [reflexivity|].
  intros H. cbn [replaceAllFrom isPrefixOf].
  destruct (N.eqb_spec c x) as [->|_].
  - exfalso. apply H. now left.
  - cbn [andb]. f_equal. apply IH. intros Hin. apply H. now right.
Qed.

(** X15: a text without ampersand is its own decoding. *)
Theorem decodeXml_without_ampersand (s : jsstring) :
  ~ In 38 s -> decodeXml s = s.
Proof.
  intros H. unfold decodeXml.
  change (js "&apos;") with (38 :: js "apos;").
  change (js "&quot;") with (38 :: js "quot;").
  change (js "&gt;") with (38 :: js "gt;").
  change (js "&lt;") with (38 :: js "lt;").
  change (js "&amp;") with (38 :: js "amp;").
  rewrite (replaceAll_absent 38 (js "amp;") _ s H).
  rewrite (replaceAll_absent 38 (js "lt;") _ s H).
  rewrite (replaceAll_absent 38 (js "gt;") _ s H).
  rewrite (replaceAll_absent 38 (js "quot;") _ s H).
  apply (replaceAll_absent 38 (js "apos;") _ s H).
Qed.

Lemma decodeXml_without_ampersand_witness :
  decodeXml (js "readme (final).txt") = js "readme (final).txt".
Proof.
  apply decodeXml_without_ampersand. vm_compute.
  intros H. repeat (destruct H as [H|H]; [discriminate|]). exact H.
Defined.

Section ParseFacts.
Variable decodeURIComponent : jsstring -> Outcome jsstring.
Variable localeCompare : jsstring -> jsstring -> Z.

Lemma parseLoop_throws (fullPrefix : jsstring) (responses : list jsstring) :
  forall acc e,
    parseLoop decodeURIComponent fullPrefix responses acc = Throw e ->
    exists response href,
      In response responses
      /\ hrefOf response = Some href
      /\ displayNameOf response <> []
      /\ decodeURIComponent href = Throw e.
Proof.
  induction responses as [|response rest IH]; intros acc e;
    cbn [parseLoop]; [discriminate|].
  destruct (processResponse decodeURIComponent fullPrefix response acc)
    as [acc1|e1] eqn:E.
  - intros H. apply IH in H. destruct H as (r & href & Hin & H).
    exists r, href. split; [now right | exact H].
  - intros [= <-]. apply processResponse_throws in E.
    destruct E as (href & H). exists response, href.
    split; [now left | exact H].
Qed.

Lemma parseLoop_rejects (fullPrefix : jsstring) (responses : list jsstring)
    (response href : jsstring) (e : Thrown) :
  In response responses -> hrefOf response = Some href ->
  displayNameOf response <> [] -> decodeURIComponent href = Throw e ->
  forall acc, exists e',
    parseLoop decodeURIComponent fullPrefix responses acc = Throw e'.
Proof.
  intros Hin Hh Hn Hd.
  induction responses as [|r rest IH]; [contradiction|].
  intros acc. cbn [parseLoop].
  destruct (processResponse decodeURIComponent fullPrefix r acc)
    as [acc1|e1] eqn:E; [|eauto].
  destruct Hin as [->|Hin]; [|now apply IH].
  exfalso. destruct acc as [objs prefs].
  rewrite processResponse_spec, Hh, Hd in E.
  destruct (displayNameOf response); [contradiction | discriminate].
Qed.

(** X17: the parse fails exactly when the body has a response block with a
    display name whose href [decodeURIComponent] rejects, and what it
    throws is what [decodeURIComponent] threw on such a block; on every
    other body it returns a listing. *)
Theorem parsePropfindResponse_throws_iff
    (xml fullPrefix displayPrefix : jsstring) :
  let rejected response e :=
    exists href, hrefOf response = Some href
                 /\ displayNameOf response <> []
                 /\ decodeURIComponent href = Throw e in
  (forall e,
     parsePropfindResponse decodeURIComponent localeCompare
       xml fullPrefix displayPrefix = Throw e ->
     exists response, In response (responseBlocks xml) /\ rejected response e)
  /\ ((exists response e,
         In response (responseBlocks xml) /\ rejected response e)
      <-> exists e,
            parsePropfindResponse decodeURIComponent localeCompare
              xml fullPrefix displayPrefix = Throw e).
Proof.
  cbv zeta.
  assert (forall e,
            parsePropfindResponse decodeURIComponent localeCompare
              xml fullPrefix displayPrefix = Throw e ->
            exists response,
              In response (responseBlocks xml)
              /\ exists href, hrefOf response = Some href
                              /\ displayNameOf response <> []
                              /\ decodeURIComponent href = Throw e) as Hthrow.
  { intros e. unfold parsePropfindResponse.
    destruct (parseLoop decodeURIComponent fullPrefix (responseBlocks xml)
                ([], [])) as [[objs prefs]|e1] eqn:E; [discriminate|].
    intros [= <-]. apply parseLoop_throws in E.
    destruct E as (response & href & Hin & H). eauto. }
  split; [exact Hthrow|]. split.
  - intros (response & e & Hin & href & Hh & Hn & Hd).
    destruct (parseLoop_rejects fullPrefix _ _ _ _ Hin Hh Hn Hd ([], []))
      as [e' E].
    exists e'. unfold parsePropfindResponse. now rewrite E.
  - intros [e H]. apply Hthrow in H. destruct H as (response & Hin & H).
    eauto.
Qed.

(** X18: what every returned listing satisfies: each object has a non-empty
    key, which is also its name, and no entity tag; the prefixes are
    exactly the keys of the directory objects; and the listing is never
    reported truncated or continued. *)
Theorem listing_invariants
    (xml fullPrefix displayPrefix : jsstring) (listing : ListObjectsResult) :
  parsePropfindResponse decodeURIComponent localeCompare
    xml fullPrefix displayPrefix = Return listing ->
  (forall o, In o (objects listing) ->
     key o <> [] /\ name o = key o /\ etag o = None)
  /\ (forall p, In p (prefixes listing) <->
        exists o, In o (objects listing)
                  /\ isDirectory o = true /\ key o = p)
  /\ isTruncated listing = false
  /\ nextContinuationToken listing = None.
Proof.
  intros H. apply parsePropfindResponse_listed in H.
  destruct H as (Ho & Hp & Ht & Hc).
  split; [|split; [|split; assumption]].
  - intros o Hin. apply Ho in Hin. destruct Hin as (response & _ & Hl & ->).
    apply listed_not_current in Hl.
    destruct Hl as (href & decoded & _ & _ & Hn & _).
    repeat split. exact Hn.
  - intros p. rewrite Hp, in_map_iff. split.
    + intros (response & <- & Hin).
      apply filter_In in Hin. destruct Hin as [Hin Hd].
      apply filter_In in Hin. destruct Hin as [Hin Hl].
      exists (entryOf response). split; [apply Ho; eauto|].
      split; [exact Hd | reflexivity].
    + intros (o & Hin & Hd & <-).
      apply Ho in Hin. destruct Hin as (response & Hin & Hl & ->).
      exists response. split; [reflexivity|].
      apply filter_In. split; [|exact Hd]. apply filter_In. auto.
Qed.

(** X19: a body without a complete response element, the empty body among
    them, parses to the empty listing. *)
Theorem parsePropfindResponse_no_elements
    (xml fullPrefix displayPrefix : jsstring) :
  includes xml (js "<D:response>") = false
  \/ includes xml (js "</D:response>") = false ->
  parsePropfindResponse decodeURIComponent localeCompare
    xml fullPrefix displayPrefix
  = Return {| objects := []; prefixes := []; isTruncated := false;
              nextContinuationToken := None |}.
Proof.
  intros H. unfold parsePropfindResponse.
  rewrite (responseBlocks_none xml H). reflexivity.
Qed.
End ParseFacts.

Lemma parsePropfindResponse_throws_iff_witness :
  exists e,
    parsePropfindResponse Host.decodeURIComponent Host.localeCompare
      Sample.percentBody (js "files/docs/") (js "docs/") = Throw e.
Proof.
  pose proof (parsePropfindResponse_throws_iff
                Host.decodeURIComponent Host.localeCompare
                Sample.percentBody (js "files/docs/") (js "docs/")) as H.
  cbv zeta in H. destruct H as [_ [H _]]. apply H.
  exists Sample.percentEntry, (ErrorValue (js "URI malformed")).
  split; [left; reflexivity|].
  exists (js "/files/docs/100%"). repeat split. discriminate.
Defined.

Lemma listing_invariants_witness :
  match parsePropfindResponse Host.decodeURIComponent Host.localeCompare
          Sample.docsBody (js "files/docs/") (js "docs/") with
  | Throw _ => False
  | Return listing =>
      (forall o, In o (objects listing) ->
         key o <> [] /\ name o = key o /\ etag o = None)
      /\ (forall p, In p (prefixes listing) <->
            exists o, In o (objects listing)
                      /\ isDirectory o = true /\ key o = p)
  end.
Proof.
  destruct (parsePropfindResponse Host.decodeURIComponent Host.localeCompare
              Sample.docsBody (js "files/docs/") (js "docs/"))
    as [listing|e] eqn:E.
  - destruct (listing_invariants _ _ _ _ _ _ E) as (H1 & H2 & _).
    split; assumption.
  - vm_compute in E. discriminate.
Defined.

Lemma parsePropfindResponse_no_elements_witness :
  parsePropfindResponse Host.decodeURIComponent Host.localeCompare
    (js "<html><body>It works!</body></html>") [] []
  = Return {| objects := []; prefixes := []; isTruncated := false;
              nextContinuationToken := None |}.
Proof.
  apply parsePropfindResponse_no_elements. left. reflexivity.
Defined.

(** ** One request at most *)

Section RequestCount.
Variable fetch : Request -> Outcome Response.
Variable btoa : jsstring -> Outcome jsstring.
Variable decodeURIComponent : jsstring -> Outcome jsstring.
Variable localeCompare : jsstring -> jsstring -> Z.
Variable encode : jsstring -> list N.
Variable config : WebdevConfig.

(** X10: every operation sends exactly one request, whatever the answer, and
    leaves the requests sent before it as they were; the request carries
    [Basic] followed by the encoded credentials in its [Authorization]
    header.  When the credentials cannot be encoded, no request is
    sent. *)
Theorem operations_send_one_request
    (key other : jsstring) (body : PutBody) (contentType : option jsstring)
    (log : list Request) :
  sendsOne btoa config
    (listObjects fetch btoa decodeURIComponent localeCompare config key) log
  /\ sendsOne btoa config (getObject fetch btoa config key) log
  /\ sendsOne btoa config
       (putObject fetch btoa encode config key body contentType) log
  /\ sendsOne btoa config (deleteObject fetch btoa config key) log
  /\ sendsOne btoa config (createFolder fetch btoa config key) log
  /\ sendsOne btoa config (copyObject fetch btoa config key other) log
  /\ sendsOne btoa config (headObject fetch btoa config key) log.
Proof.
  unfold sendsOne.
  rewrite listObjects_run, getObject_run, putObject_run, deleteObject_run,
    createFolder_run, copyObject_run, headObject_run, !statusRun_log.
  destruct (btoa (credentialsOf config)) as [encoded|e]; cbv zeta.
  - repeat split;
      try (destruct (fetch _));
      (eexists; split;
       [reflexivity | eexists; split; [reflexivity | now left]]).
  - repeat split; exists []; rewrite app_nil_r; split; reflexivity.
Qed.
End RequestCount.

(** ** Where [decodeXml] is a single unescape *)

Lemma replaceAllFrom_skip (pat rep : jsstring) (s : jsstring) :
  forall k, replaceAllFrom k pat rep s = replaceAll pat rep (skipn k s).
Proof.
  unfold replaceAll. induction s as [|c r IH]; intros [|k]; try reflexivity.
  cbn [replaceAllFrom skipn]. apply IH.
Qed.

Lemma unescapeOnceFrom_skip (s : jsstring) :
  forall k, unescapeOnceFrom k s = unescapeOnce (skipn k s).
Proof.
  unfold unescapeOnce. induction s as [|c r IH]; intros [|k]; try reflexivity.
  cbn [unescapeOnceFrom skipn]. apply IH.
Qed.

Lemma replaceAll_other (p rep r : jsstring) (c : codeunit) :
  c <> 38 ->
  replaceAll (38 :: p) rep (c :: r) = c :: replaceAll (38 :: p) rep r.
Proof.
  intros H. unfold replaceAll. cbn [replaceAllFrom isPrefixOf].
  destruct (N.eqb_spec 38 c); [congruence | reflexivity].
Qed.

Lemma replaceAll_word (p rep w t : jsstring) :
  ~ In 38 w ->
  replaceAll (38 :: p) rep (w ++ t) = w ++ replaceAll (38 :: p) rep t.
Proof.
  induction w as [|x w IH]; intros H; [reflexivity|].
  cbn [app]. rewrite replaceAll_other.
  - f_equal. apply IH. intros Hin. apply H. now right.
  - intros ->. apply H. now left.
Qed.

Lemma replaceAll_here (p rep t : jsstring) :
  replaceAll (38 :: p) rep (38 :: p ++ t) = rep ++ replaceAll (38 :: p) rep t.
Proof.
  unfold replaceAll at 1.
  cbn [replaceAllFrom]. change (38 :: p ++ t) with ((38 :: p) ++ t).
  rewrite isPrefixOf_app. f_equal. rewrite replaceAllFrom_skip.
  match goal with
  | |- context [skipn ?k _] =>
      replace k with (length p) by (cbn [length]; lia)
  end.
  rewrite skipn_app, Nat.sub_diag, skipn_all. reflexivity.
Qed.

Lemma replaceAll_not_here (p rep r : jsstring) :
  isPrefixOf p r = false ->
  replaceAll (38 :: p) rep (38 :: r) = 38 :: replaceAll (38 :: p) rep r.
Proof.
  intros H. unfold replaceAll. cbn [replaceAllFrom isPrefixOf].
  rewrite H. reflexivity.
Qed.

Lemma replaceAll_no_occurrence (p rep s : jsstring) :
  splitAt (38 :: p) s = None -> replaceAll (38 :: p) rep s = s.
Proof.
  unfold replaceAll. induction s as [|c r IH]; [reflexivity|].
  cbn [splitAt replaceAllFrom].
  destruct (isPrefixOf (38 :: p) (c :: r)); [discriminate|].
  destruct (splitAt (38 :: p) r) as [[x y]|]; [discriminate|].
  intros _. f_equal. now apply IH.
Qed.

(** A pass that writes [c] does not create or destroy an occurrence of a
    word that holds neither [c] nor an ampersand. *)
Lemma isPrefixOf_replaceAll (p w : jsstring) (c : codeunit) :
  ~ In 38 w -> ~ In c w ->
  forall r, isPrefixOf w (replaceAll (38 :: p) [c] r) = isPrefixOf w r.
Proof.
  induction w as [|x w IH]; intros H38 Hc r; [reflexivity|].
  assert (x <> 38) as X38 by (intros ->; apply H38; now left).
  assert (x <> c) as Xc by (intros ->; apply Hc; now left).
  assert (~ In 38 w) as W38 by (intros Hin; apply H38; now right).
  assert (~ In c w) as Wc by (intros Hin; apply Hc; now right).
  destruct r as [|y r]; [reflexivity|].
  unfold replaceAll. cbn [replaceAllFrom].
  destruct (isPrefixOf (38 :: p) (y :: r)) eqn:E.
  - cbn [isPrefixOf] in E |- *. apply andb_true_iff in E. destruct E as [E _].
    apply N.eqb_eq in E. subst y. cbn [app isPrefixOf].
    destruct (N.eqb_spec x c), (N.eqb_spec x 38); try congruence.
    reflexivity.
  - cbn [isPrefixOf]. f_equal. apply (IH W38 Wc).
Qed.

(** Settles that a numeral is not in a literal word. *)
Ltac not_in_word :=
  let H := fresh in
  cbv; intros H; repeat (destruct H as [H|H]; [discriminate|]); exact H.

Lemma entityAt_other (c : codeunit) (r : jsstring) :
  c <> 38 -> entityAt (c :: r) = None.
Proof.
  intros H. unfold entityAt.
  change (js "&amp;") with (38 :: js "amp;").
  change (js "&lt;") with (38 :: js "lt;").
  change (js "&gt;") with (38 :: js "gt;").
  change (js "&quot;") with (38 :: js "quot;").
  change (js "&apos;") with (38 :: js "apos;").
  cbn [isPrefixOf]. destruct (N.eqb_spec 38 c); [congruence | reflexivity].
Qed.

Lemma entityAt_ampersand (r : jsstring) :
  entityAt (38 :: r)
  = if isPrefixOf (js "amp;") r then Some (38, 4%nat)
    else if isPrefixOf (js "lt;") r then Some (60, 3%nat)
    else if isPrefixOf (js "gt;") r then Some (62, 3%nat)
    else if isPrefixOf (js "quot;") r then Some (34, 5%nat)
    else if isPrefixOf (js "apos;") r then Some (39, 5%nat)
    else None.
Proof. reflexivity. Qed.

Lemma splitAt_None_cons (pat r : jsstring) (c : codeunit) :
  splitAt pat (c :: r) = None ->
  isPrefixOf pat (c :: r) = false /\ splitAt pat r = None.
Proof.
  cbn [splitAt]. destruct (isPrefixOf pat (c :: r)); [discriminate|].
  destruct (splitAt pat r) as [[x y]|]; [discriminate | auto].
Qed.

(** The four passes after the first, on a text in which the first finds
    nothing, do what one pass over the text does. *)
Lemma later_passes_unescape (n : nat) :
  forall s, (length s <= n)%nat ->
  splitAt (38 :: js "amp;") s = None ->
  replaceAll (38 :: js "apos;") [39]
    (replaceAll (38 :: js "quot;") [34]
       (replaceAll (38 :: js "gt;") [62]
          (replaceAll (38 :: js "lt;") [60] s)))
  = unescapeOnce s.
Proof.
  induction n as [|n IH]; intros s Hlen Hamp.
  { destruct s; [reflexivity | simpl in Hlen; lia]. }
  destruct s as [|c r]; [reflexivity|].
  destruct (splitAt_None_cons _ _ _ Hamp) as [Hhere Hrest].
  destruct (N.eq_dec c 38) as [->|Hc].
  2:{ rewrite !replaceAll_other by assumption.
      unfold unescapeOnce. cbn [unescapeOnceFrom].
      rewrite entityAt_other by assumption. f_equal.
      apply IH; [simpl in Hlen; lia | exact Hrest]. }
  cbn [isPrefixOf] in Hhere. rewrite N.eqb_refl in Hhere. cbn [andb] in Hhere.
  unfold unescapeOnce. cbn [unescapeOnceFrom].
  rewrite entityAt_ampersand, Hhere, unescapeOnceFrom_skip.
  destruct (isPrefixOf (js "lt;") r) eqn:Elt.
  { apply isPrefixOf_true in Elt. remember (skipn (length (js "lt;")) r) as t.
    clear Heqt. subst r. change (skipn 3 (js "lt;" ++ t)) with t.
    rewrite replaceAll_here. cbn [app].
    rewrite !replaceAll_other by discriminate. f_equal.
    apply IH; [cbn [length] in Hlen; rewrite length_app in Hlen;
               simpl in Hlen; lia|].
    now apply splitAt_None_suffix in Hrest. }
  destruct (isPrefixOf (js "gt;") r) eqn:Egt.
  { apply isPrefixOf_true in Egt. remember (skipn (length (js "gt;")) r) as t.
    clear Heqt. subst r. change (skipn 3 (js "gt;" ++ t)) with t.
    rewrite replaceAll_not_here by reflexivity.
    rewrite replaceAll_word by not_in_word.
    rewrite replaceAll_here. cbn [app].
    rewrite !replaceAll_other by discriminate. f_equal.
    apply IH; [cbn [length] in Hlen; rewrite length_app in Hlen;
               simpl in Hlen; lia|].
    now apply splitAt_None_suffix in Hrest. }
  destruct (isPrefixOf (js "quot;") r) eqn:Equot.
  { apply isPrefixOf_true in Equot.
    remember (skipn (length (js "quot;")) r) as t.
    clear Heqt. subst r. change (skipn 5 (js "quot;" ++ t)) with t.
    rewrite replaceAll_not_here by reflexivity.
    rewrite replaceAll_word by not_in_word.
    rewrite replaceAll_not_here by reflexivity.
    rewrite replaceAll_word by not_in_word.
    rewrite replaceAll_here. cbn [app].
    rewrite !replaceAll_other by discriminate. f_equal.
    apply IH; [cbn [length] in Hlen; rewrite length_app in Hlen;
               simpl in Hlen; lia|].
    now apply splitAt_None_suffix in Hrest. }
  destruct (isPrefixOf (js "apos;") r) eqn:Eapos.
  { apply isPrefixOf_true in Eapos.
    remember (skipn (length (js "apos;")) r) as t.
    clear Heqt. subst r. change (skipn 5 (js "apos;" ++ t)) with t.
    rewrite replaceAll_not_here by reflexivity.
    rewrite replaceAll_word by not_in_word.
    rewrite replaceAll_not_here by reflexivity.
    rewrite replaceAll_word by not_in_word.
    rewrite replaceAll_not_here by reflexivity.
    rewrite replaceAll_word by not_in_word.
    rewrite replaceAll_here. cbn [app]. f_equal.
    apply IH; [cbn [length] in Hlen; rewrite length_app in Hlen;
               simpl in Hlen; lia|].
    now apply splitAt_None_suffix in Hrest. }
  change (skipn 0 r) with r.
  rewrite (replaceAll_not_here _ _ _ Elt).
  rewrite replaceAll_not_here
    by (rewrite isPrefixOf_replaceAll by not_in_word; exact Egt).
  rewrite replaceAll_not_here
    by (rewrite !isPrefixOf_replaceAll by not_in_word; exact Equot).
  rewrite replaceAll_not_here
    by (rewrite !isPrefixOf_replaceAll by not_in_word; exact Eapos).
  f_equal. apply IH; [simpl in Hlen; lia | exact Hrest].
Qed.

(** X16: on a text that does not contain [&amp;], [decodeXml] is a single
    unescape: each entity reference is replaced by its character, and
    nothing that was written is read again. *)
Theorem decodeXml_single_unescape (s : jsstring) :
  includes s (js "&amp;") = false -> decodeXml s = unescapeOnce s.
Proof.
  unfold includes. intros H.
  destruct (splitAt (js "&amp;") s) eqn:E; [discriminate|].
  unfold decodeXml.
  change (js "&amp;") with (38 :: js "amp;") in *.
  rewrite (replaceAll_no_occurrence _ _ _ E).
  apply (later_passes_unescape (length s)); [lia | exact E].
Qed.

Lemma decodeXml_single_unescape_witness :
  decodeXml (js "Tom &lt;&quot;T&quot;&gt; &apos;n Jerry & co")
  = unescapeOnce (js "Tom &lt;&quot;T&quot;&gt; &apos;n Jerry & co").
Proof. apply decodeXml_single_unescape. reflexivity. Defined.

(** C4, amended: [decodeXml] replaces [&amp;] first and the four other
    references afterwards, in the text the first replacement has written.
    The raw text [&amp;lt;report&amp;gt;] decodes to [<report>]; on a text
    that does not contain [&amp;] the decoding is a single unescape; and
    on any text it is a single unescape of what the first replacement
    leaves, provided no [&amp;] is left there. *)
Theorem decodeXml_report :
  decodeXml (js "&amp;lt;report&amp;gt;") = js "<report>"
  /\ (forall s, includes s (js "&amp;") = false ->
                decodeXml s = unescapeOnce s)
  /\ (forall s,
        includes (replaceAll (js "&amp;") (js "&") s) (js "&amp;") = false ->
        decodeXml s = unescapeOnce (replaceAll (js "&amp;") (js "&") s)).
Proof.
  split; [reflexivity|]. split.
  - intros s H. unfold includes in H.
    destruct (splitAt (js "&amp;") s) eqn:E; [discriminate|].
    unfold decodeXml.
    change (js "&amp;") with (38 :: js "amp;") in *.
    rewrite (replaceAll_no_occurrence _ _ _ E).
    apply (later_passes_unescape (length s)); [lia | exact E].
  - intros s H. unfold includes in H.
    destruct (splitAt (js "&amp;") (replaceAll (js "&amp;") (js "&") s))
      eqn:E; [discriminate|].
    unfold decodeXml.
    apply (later_passes_unescape
             (length (replaceAll (js "&amp;") (js "&") s))); [lia | exact E].
Qed.

Lemma decodeXml_report_witness :
  decodeXml (js "&lt;report&gt;") = unescapeOnce (js "&lt;report&gt;")
  /\ decodeXml (js "&amp;lt;report&amp;gt;")
     = unescapeOnce
         (replaceAll (js "&amp;") (js "&") (js "&amp;lt;report&amp;gt;")).
Proof.
  destruct decodeXml_report as (_ & Hplain & Hleft). split.
  - apply Hplain. reflexivity.
  - apply Hleft. reflexivity.
Defined.

(** ** Names in a listing *)

Lemma lazyDot_single_line (close s capture : jsstring) :
  lazyDot close s = Some capture ->
  Forall (fun c => isLineTerminator c = false) capture.
Proof.
  revert capture; induction s as [|c r IH]; intros capture; cbn [lazyDot].
  - destruct (isPrefixOf close []); [|discriminate].
    intros [= <-]. constructor.
  - destruct (isPrefixOf close (c :: r)); [intros [= <-]; constructor|].
    destruct (isLineTerminator c) eqn:E; [discriminate|].
    destruct (lazyDot close r) as [t|]; [|discriminate].
    intros [= <-]. constructor; [exact E | now apply IH].
Qed.

Lemma matchDot_single_line (open close s capture : jsstring) :
  matchDot open close s = Some capture ->
  Forall (fun c => isLineTerminator c = false) capture.
Proof.
  induction s as [|c r IH]; cbn [matchDot].
  - destruct (isPrefixOf open []); [|discriminate].
    destruct (lazyDot close _) eqn:E; [|discriminate].
    intros [= <-]. now apply lazyDot_single_line in E.
  - destruct (if isPrefixOf open (c :: r)
              then lazyDot close (skipn (length open) (c :: r)) else None)
      as [t|] eqn:E; [|exact IH].
    intros [= <-]. destruct (isPrefixOf open (c :: r)); [|discriminate].
    now apply lazyDot_single_line in E.
Qed.

Lemma replaceAllFrom_Forall (P : codeunit -> Prop) (pat rep s : jsstring) :
  Forall P rep -> Forall P s ->
  forall k, Forall P (replaceAllFrom k pat rep s).
Proof.
  intros Hrep. induction 1 as [|c r Hc Hr IH]; intros k; [constructor|].
  cbn [replaceAllFrom]. destruct k as [|k]; [|apply IH].
  destruct (isPrefixOf pat (c :: r)).
  - apply Forall_app. split; [exact Hrep | apply IH].
  - constructor; [exact Hc | apply IH].
Qed.

Lemma decodeXml_single_line (s : jsstring) :
  Forall (fun c => isLineTerminator c = false) s ->
  Forall (fun c => isLineTerminator c = false) (decodeXml s).
Proof.
  intros H. unfold decodeXml, replaceAll.
  repeat (apply replaceAllFrom_Forall;
          [repeat constructor|]).
  exact H.
Qed.

Section NameFacts.
Variable decodeURIComponent : jsstring -> Outcome jsstring.
Variable localeCompare : jsstring -> jsstring -> Z.

(** X20: no key and no date of a returned listing holds a line break: an
    element whose text runs over a line break is not read. *)
Theorem listed_names_single_line
    (xml fullPrefix displayPrefix : jsstring) (listing : ListObjectsResult) :
  parsePropfindResponse decodeURIComponent localeCompare
    xml fullPrefix displayPrefix = Return listing ->
  forall o, In o (objects listing) ->
    Forall (fun c => isLineTerminator c = false) (key o)
    /\ Forall (fun c => isLineTerminator c = false) (lastModified o).
Proof.
  intros H o Hin. apply parsePropfindResponse_listed in H.
  destruct H as (Ho & _). apply Ho in Hin.
  destruct Hin as (response & _ & _ & ->).
  unfold entryOf, displayNameOf, lastModifiedOf. cbn [key lastModified].
  split.
  - destruct (matchDot (js "<D:displayname>") _ response) eqn:E;
      [|constructor].
    apply decodeXml_single_line. now apply matchDot_single_line in E.
  - destruct (matchDot (js "<D:getlastmodified>") _ response) eqn:E;
      [|constructor].
    apply decodeXml_single_line. now apply matchDot_single_line in E.
Qed.
End NameFacts.

Lemma listed_names_single_line_witness :
  match parsePropfindResponse Host.decodeURIComponent Host.localeCompare
          (Sample.entry (js "<D:href>/a</D:href><D:displayname>a"
                         ++ [10] ++ js "b</D:displayname>")
           ++ Sample.entry Sample.readmeEntry) [] [] with
  | Throw _ => False
  | Return listing =>
      map key (objects listing) = [js "readme.txt"]
      /\ forall o, In o (objects listing) ->
           Forall (fun c => isLineTerminator c = false) (key o)
  end.
Proof.
  destruct (parsePropfindResponse _ _ _ _ _) as [listing|e] eqn:E.
  - split.
    + vm_compute in E. injection E as <-. reflexivity.
    + intros o Hin.
      apply (listed_names_single_line _ _ _ _ _ _ E o Hin).
  - vm_compute in E. discriminate.
Defined.

(** ** Addresses do not collide *)

(** X3: two keys have the same address exactly when they are equal up to one
    leading separator. *)
Theorem resourceUrl_injective (config : WebdevConfig) (key key' : jsstring) :
  resourceUrl config key = resourceUrl config key'
  <-> stripLeadingSlash key = stripLeadingSlash key'.
Proof.
  unfold resourceUrl, getFullPath. split.
  - intros H. do 2 apply app_inv_head in H.
    destruct (truthy (normalizedBasePath config)); [|exact H].
    now do 2 apply app_inv_head in H.
  - intros ->. reflexivity.
Qed.
